(** * lincride: route matching and the trip-location gateway

    A shallow embedding of [trips/services/distance.py],
    [trips/services/matching.py] and [trips/consumers.py], and the
    properties of the route-matching engine and of the message dispatch
    of the connection gateway.

    Modelling conventions.
    - A Python [float] is a real number ([R]): arithmetic is exact, so
      rounding, NaN and overflow are outside the model.  The one infinite
      value the code creates itself, the sentinel [float('inf')] of the
      nearest-point search, is kept ([efloat]).  Over the reals the
      haversine term lies between 0 and 1, so the [math.sqrt] of
      [haversine_distance] never raises here; in double precision the
      term can exceed 1 by a rounding error for two points that are
      almost antipodal, and [math.sqrt (1 - a)] then raises [ValueError].
      A statement about the distance from an arbitrary rider's point is
      therefore made for the calls that return, or as an equation between
      two results that holds whether they return or raise.
    - A Python [int] is a [Z]; list subscripts follow Python's rules
      (negative subscripts count from the end, anything else out of range
      raises [IndexError]).
    - Code that can raise runs in the [result] monad, and an [except]
      clause is the [Raise] case of a match.  That a function "never
      raises" is the theorem that it returns [Ok].
    - What lives outside the repository is a parameter: [polyline.decode],
      the two Django settings, the database lookup and the broker client.
    - A call of the channel layer is an effect in the trace.  The layer
      of the channels package raises [TypeError] for a group name that is
      not a [valid_group_name]; [group_add] and [group_send] are modelled
      with that check, and a statement that rests on one of them carries
      the validity of the name as a hypothesis. *)

From Stdlib Require Import Reals Lra Lia ZArith List String Bool.
Import ListNotations.

Set Warnings "-register-all".
Local Open Scope R_scope.

(* ================================================================== *)
(** * Python runtime: exceptions, subscripts, ranges                   *)
(* ================================================================== *)

Inductive exn : Type :=
| IndexError
| ValueError
| TypeError
| ZeroDivisionError
| AttributeError
| LibraryError (msg : string).

Inductive result (A : Type) : Type :=
| Ok (a : A)
| Raise (e : exn).

Arguments Ok {A} a.
Arguments Raise {A} e.

Definition bind {A B : Type} (c : result A) (k : A -> result B) : result B :=
  match c with
  | Ok a => k a
  | Raise e => Raise e
  end.

Declare Scope py_scope.
Delimit Scope py_scope with py.
Notation "x <- c1 ;; c2" := (bind c1 (fun x => c2))
  (at level 61, c1 at next level, right associativity) : py_scope.
Notation "' pat <- c1 ;; c2" :=
  (bind c1 (fun x => match x with pat => c2 end))
  (at level 61, pat pattern, c1 at next level, right associativity) : py_scope.
Local Open Scope py_scope.

(** [for i in its: s = body(s, i)], stopping at the first exception. *)
Fixpoint for_loop {S I : Type} (body : S -> I -> result S) (its : list I) (s : S)
  : result S :=
  match its with
  | [] => Ok s
  | i :: rest => s' <- body s i ;; for_loop body rest s'
  end.

(** [len(l)] *)
Definition len {A : Type} (l : list A) : Z := Z.of_nat (List.length l).

(** [l[i]] *)
Definition getitem {A : Type} (l : list A) (i : Z) : result A :=
  let j := if (i <? 0)%Z then (i + len l)%Z else i in
  if (j <? 0)%Z then Raise IndexError
  else match nth_error l (Z.to_nat j) with
       | Some x => Ok x
       | None => Raise IndexError
       end.

(** [range(a, b)] *)
Definition range (a b : Z) : list Z :=
  map (fun k => (a + Z.of_nat k)%Z) (seq 0 (Z.to_nat (b - a))).

(** [enumerate(l)] *)
Definition enumerate {A : Type} (l : list A) : list (Z * A) :=
  combine (range 0 (len l)) l.

(** A float that may be the sentinel [float('inf')]. *)
Inductive efloat : Type :=
| Fin (x : R)
| PosInf.

(** [x < m] for a finite [x]. *)
Definition lt_e (x : R) (m : efloat) : bool :=
  match m with
  | Fin y => if Rlt_dec x y then true else false
  | PosInf => true
  end.

(** [m > x] for a finite [x]. *)
Definition gt_e (m : efloat) (x : R) : bool :=
  match m with
  | Fin y => if Rgt_dec y x then true else false
  | PosInf => true
  end.

(** [m <= x], the order the specification speaks in. *)
Definition le_e (m : efloat) (x : R) : Prop :=
  match m with
  | Fin y => y <= x
  | PosInf => False
  end.

(* ================================================================== *)
(** * The [math] module                                                *)
(* ================================================================== *)

Module math.

(** [math.radians]: degrees times pi/180. *)
Definition radians (x : R) : R := x * (PI / 180).

(** [math.sqrt]: a negative argument is a "math domain error". *)
Definition sqrt (x : R) : result R :=
  if Rlt_dec x 0 then Raise ValueError else Ok (R_sqrt.sqrt x).

(** [math.atan2 y x]: the angle of the point [(x, y)], in (-pi, pi]. *)
Definition atan2 (y x : R) : R :=
  if Rlt_dec 0 x then atan (y / x)
  else if Rlt_dec x 0 then
         (if Rle_dec 0 y then atan (y / x) + PI else atan (y / x) - PI)
  else if Rlt_dec 0 y then PI / 2
  else if Rlt_dec y 0 then - (PI / 2)
  else 0.

End math.

(* ================================================================== *)
(** * trips/services/distance.py                                       *)
(* ================================================================== *)

Module DistanceService.

Record RoutePoint : Type := {
  latitude : R;
  longitude : R;
  distance_from_start : R
}.

Record NearestPointResult : Type := {
  point : RoutePoint;
  distance_to_point : efloat;
  route_index : Z
}.

Definition EARTH_RADIUS_METERS : R := 6371000.

(** [haversine_distance], in exact arithmetic.  Either [math.sqrt] can
    raise; over the reals neither does ([haversine_distance_ok] below),
    in double precision the second one does for two points that are
    almost antipodal. *)
Definition haversine_distance (lat1 lon1 lat2 lon2 : R) : result R :=
  let lat1_rad := math.radians lat1 in
  let lat2_rad := math.radians lat2 in
  let delta_lat := math.radians (lat2 - lat1) in
  let delta_lon := math.radians (lon2 - lon1) in
  let a := sin (delta_lat / 2) ^ 2 +
           cos lat1_rad * cos lat2_rad * sin (delta_lon / 2) ^ 2 in
  sa <- math.sqrt a ;;
  sb <- math.sqrt (1 - a) ;;
  let c := 2 * math.atan2 sa sb in
  Ok (EARTH_RADIUS_METERS * c).

(** The first loop of [find_nearest_point_on_route]: its state is
    [(cumulative_distance, distances_from_start)]. *)
Definition cumulative_step (route_points : list (R * R))
  (st : R * list R) (i : Z) : result (R * list R) :=
  let '(cumulative_distance, distances_from_start) := st in
  '(prev_lat, prev_lon) <- getitem route_points (i - 1) ;;
  '(curr_lat, curr_lon) <- getitem route_points i ;;
  segment_distance <- haversine_distance prev_lat prev_lon curr_lat curr_lon ;;
  let cumulative_distance := cumulative_distance + segment_distance in
  Ok (cumulative_distance, distances_from_start ++ [cumulative_distance]).

Definition cumulative_distances (route_points : list (R * R))
  : result (R * list R) :=
  for_loop (cumulative_step route_points) (range 1 (len route_points)) (0, [0]).

(** The second loop: its state is [(min_distance, nearest_index)]. *)
Definition nearest_step (query_lat query_lon : R)
  (st : efloat * Z) (it : Z * (R * R)) : result (efloat * Z) :=
  let '(min_distance, nearest_index) := st in
  let '(i, (lat, lon)) := it in
  distance <- haversine_distance query_lat query_lon lat lon ;;
  if lt_e distance min_distance then Ok (Fin distance, i)
  else Ok (min_distance, nearest_index).

Definition find_nearest_point_on_route (query_lat query_lon : R)
  (route_points : list (R * R)) : result (option NearestPointResult) :=
  match route_points with
  | [] => Ok None
  | _ :: _ =>
    '(_, distances_from_start) <- cumulative_distances route_points ;;
    '(min_distance, nearest_index) <-
      for_loop (nearest_step query_lat query_lon) (enumerate route_points)
               (PosInf, 0%Z) ;;
    '(nearest_lat, nearest_lon) <- getitem route_points nearest_index ;;
    d0 <- getitem distances_from_start nearest_index ;;
    Ok (Some {| point := {| latitude := nearest_lat;
                            longitude := nearest_lon;
                            distance_from_start := d0 |};
                distance_to_point := min_distance;
                route_index := nearest_index |})
  end.

Definition route_distance_step (route_points : list (R * R))
  (total_distance : R) (i : Z) : result R :=
  '(lat1, lon1) <- getitem route_points i ;;
  '(lat2, lon2) <- getitem route_points (i + 1) ;;
  d <- haversine_distance lat1 lon1 lat2 lon2 ;;
  Ok (total_distance + d).

Definition calculate_route_distance_between_points
  (route_points : list (R * R)) (start_index end_index : Z) : result R :=
  if (start_index >=? end_index)%Z then Ok 0
  else for_loop (route_distance_step route_points)
                (range start_index end_index) 0.

(** [x / y] on floats. *)
Definition truediv (x y : R) : result R :=
  if Req_dec_T y 0 then Raise ZeroDivisionError else Ok (x / y).

Definition calculate_eta_minutes (distance_meters speed_kmh : R) : result R :=
  if Rle_dec speed_kmh 0 then Ok 0
  else
    let speed_mpm := (speed_kmh * 1000) / 60 in
    truediv distance_meters speed_mpm.

End DistanceService.

(* ================================================================== *)
(** * trips/models.py                                                  *)
(* ================================================================== *)

Module models.

(** The columns of [Trip] the matcher reads, and the coordinates of the
    two ends; the two timestamps play no part. *)
Record Trip : Type := {
  id : Z;
  starting_latitude : R;
  starting_longitude : R;
  destination_latitude : R;
  destination_longitude : R;
  route_geometry : string;
  available_seats : Z;
  is_ride_requests_allowed : bool
}.

End models.

(* ================================================================== *)
(** * trips/services/matching.py                                       *)
(* ================================================================== *)

Module RouteMatchingService.

Import DistanceService.

Record MatchedTrip : Type := {
  trip_id : Z;
  pickup_latitude : R;
  pickup_longitude : R;
  dropoff_latitude : R;
  dropoff_longitude : R;
  pickup_distance_meters : efloat;
  dropoff_distance_meters : efloat;
  rider_trip_distance_meters : R;
  available_seats : Z;
  estimated_arrival_minutes : R
}.

(** The attributes [__init__] sets; [distance_service] has no state. *)
Record Self : Type := {
  radius_meters : R;
  average_speed_kmh : R
}.

(** [x or d] for an optional float: [None] and [0.0] are both falsy. *)
Definition or_else (x : option R) (d : R) : R :=
  match x with
  | Some v => if Req_dec_T v 0 then d else v
  | None => d
  end.

(** [round(x)] to the nearest integer, halves to the even one. *)
Definition round_half_even (x : R) : Z :=
  let f := Int_part x in
  let r := x - IZR f in
  if Rlt_dec r (1 / 2) then f
  else if Rlt_dec (1 / 2) r then (f + 1)%Z
  else if Z.even f then f else (f + 1)%Z.

(** [round(x, 2)] *)
Definition round2 (x : R) : R := IZR (round_half_even (x * 100)) / 100.

(** [not s] for a string. *)
Definition str_falsy (s : string) : bool :=
  match s with
  | EmptyString => true
  | String _ _ => false
  end.

(** [not l] for a list. *)
Definition list_falsy {A : Type} (l : list A) : bool :=
  match l with
  | [] => true
  | _ :: _ => false
  end.

Section Service.

(** [polyline.decode], from the [polyline] package: the coordinates, or
    the exception it raised. *)
Variable polyline_decode : string -> result (list (R * R)).

(** [settings.DEFAULT_MATCHING_RADIUS_METERS] and
    [settings.DEFAULT_AVERAGE_SPEED_KMH]. *)
Variable DEFAULT_MATCHING_RADIUS_METERS : R.
Variable DEFAULT_AVERAGE_SPEED_KMH : R.

Definition __init__ (radius_meters average_speed_kmh : option R) : Self :=
  {| radius_meters := or_else radius_meters DEFAULT_MATCHING_RADIUS_METERS;
     average_speed_kmh := or_else average_speed_kmh DEFAULT_AVERAGE_SPEED_KMH |}.

Definition _evaluate_trip (self : Self) (trip : models.Trip)
  (rider_start_lat rider_start_lon rider_dest_lat rider_dest_lon : R)
  (seats_required : Z) : result (option MatchedTrip) :=
  (* Check eligibility *)
  if negb (models.is_ride_requests_allowed trip) then Ok None
  (* Check seat availability *)
  else if (models.available_seats trip <? seats_required)%Z then Ok None
  (* Decode route geometry *)
  else if str_falsy (models.route_geometry trip) then Ok None
  else
    match polyline_decode (models.route_geometry trip) with
    | Raise _ => Ok None   (* except Exception: return None *)
    | Ok route_points =>
      if list_falsy route_points then Ok None
      else
        (* Find nearest point to pickup *)
        pickup <- find_nearest_point_on_route
                    rider_start_lat rider_start_lon route_points ;;
        match pickup with
        | None => Ok None
        | Some pickup_result =>
          if gt_e (distance_to_point pickup_result) (radius_meters self)
          then Ok None
          else
            (* Find nearest point to dropoff *)
            dropoff <- find_nearest_point_on_route
                         rider_dest_lat rider_dest_lon route_points ;;
            match dropoff with
            | None => Ok None
            | Some dropoff_result =>
              if gt_e (distance_to_point dropoff_result) (radius_meters self)
              then Ok None
              (* Ensure dropoff is after pickup along the route *)
              else if (route_index dropoff_result <=?
                       route_index pickup_result)%Z
              then Ok None
              else
                rider_trip_distance <-
                  calculate_route_distance_between_points route_points
                    (route_index pickup_result) (route_index dropoff_result) ;;
                eta_minutes <-
                  calculate_eta_minutes
                    (distance_from_start (point pickup_result))
                    (average_speed_kmh self) ;;
                Ok (Some
                  {| trip_id := models.id trip;
                     pickup_latitude := latitude (point pickup_result);
                     pickup_longitude := longitude (point pickup_result);
                     dropoff_latitude := latitude (point dropoff_result);
                     dropoff_longitude := longitude (point dropoff_result);
                     pickup_distance_meters := distance_to_point pickup_result;
                     dropoff_distance_meters := distance_to_point dropoff_result;
                     rider_trip_distance_meters := rider_trip_distance;
                     available_seats := models.available_seats trip;
                     estimated_arrival_minutes := round2 eta_minutes |})
            end
        end
    end.

(** The body of the loop of [find_matches]; a [MatchedTrip] is a plain
    dataclass instance, so [if match:] only tests for [None]. *)
Definition find_matches_step (self : Self)
  (rider_start_lat rider_start_lon rider_dest_lat rider_dest_lon : R)
  (seats_required : Z) (matches : list MatchedTrip) (trip : models.Trip)
  : result (list MatchedTrip) :=
  m <- _evaluate_trip self trip rider_start_lat rider_start_lon
         rider_dest_lat rider_dest_lon seats_required ;;
  match m with
  | Some matched => Ok (matches ++ [matched])
  | None => Ok matches
  end.

Definition find_matches (self : Self) (trips : list models.Trip)
  (rider_start_lat rider_start_lon rider_dest_lat rider_dest_lon : R)
  (seats_required : Z) : result (list MatchedTrip) :=
  for_loop (find_matches_step self rider_start_lat rider_start_lon
              rider_dest_lat rider_dest_lon seats_required)
           trips [].

End Service.

End RouteMatchingService.

(* ================================================================== *)
(** * trips/consumers.py and the producer of trips/kafka_client.py     *)
(* ================================================================== *)

Module TripLocationConsumer.

(** A decoded JSON value, as [receive_json] gets it. *)
Inductive json : Type :=
| JNull
| JBool (b : bool)
| JInt (n : Z)
| JFloat (x : R)
| JStr (s : string)
| JList (items : list json)
| JDict (items : list (string * json)).

(** [bool(v)] *)
Definition truthy (v : json) : bool :=
  match v with
  | JNull => false
  | JBool b => b
  | JInt n => negb (n =? 0)%Z
  | JFloat x => if Req_dec_T x 0 then false else true
  | JStr s => negb (RouteMatchingService.str_falsy s)
  | JList l => negb (RouteMatchingService.list_falsy l)
  | JDict d => negb (RouteMatchingService.list_falsy d)
  end.

Definition is_not_none (v : json) : bool :=
  match v with
  | JNull => false
  | _ => true
  end.

Fixpoint lookup {V : Type} (key : string) (items : list (string * V)) : option V :=
  match items with
  | [] => None
  | (k, v) :: rest => if String.eqb k key then Some v else lookup key rest
  end.

(** [d.get(key, default)]: only a dict has [get]. *)
Definition get (d : json) (key : string) (default : json) : result json :=
  match d with
  | JDict items =>
      Ok (match lookup key items with
          | Some v => v
          | None => default
          end)
  | _ => Raise AttributeError
  end.

(** Lists and dicts cannot be hashed: they are no dict key and no set
    member. *)
Definition hashable (v : json) : bool :=
  match v with
  | JList _ | JDict _ => false
  | _ => true
  end.

Definition number (v : json) : option R :=
  match v with
  | JBool b => Some (if b then 1 else 0)
  | JInt n => Some (IZR n)
  | JFloat x => Some x
  | _ => None
  end.

(** [a == b] between hashable values: numbers by value, strings by
    content. *)
Definition key_eq (a b : json) : bool :=
  match a, b with
  | JNull, JNull => true
  | JStr s, JStr t => String.eqb s t
  | _, _ =>
      match number a, number b with
      | Some x, Some y => if Req_dec_T x y then true else false
      | _, _ => false
      end
  end.

(** A Python [set] of JSON values. *)
Definition set_contains (s : list json) (v : json) : result bool :=
  if hashable v then Ok (existsb (key_eq v) s) else Raise TypeError.

Definition set_add (s : list json) (v : json) : result (list json) :=
  if hashable v then Ok (if existsb (key_eq v) s then s else s ++ [v])
  else Raise TypeError.

Definition set_discard (s : list json) (v : json) : result (list json) :=
  if hashable v then Ok (filter (fun x => negb (key_eq v x)) s)
  else Raise TypeError.

(** What a handler does to the outside world, in order. *)
Inductive effect : Type :=
| SendJson (content : json)
| GroupAdd (group channel : string)
| GroupDiscard (group channel : string)
| GroupSend (group : string) (message : json)
| KafkaSend (topic : string) (value : json).

(** [KafkaProducerClient]: whether [start] got a producer, and the topic. *)
Record KafkaProducerClient : Type := {
  producer : bool;
  topic : string
}.

Record Self : Type := {
  channel_name : string;
  subscribed_trips : list json;
  kafka_producer : option KafkaProducerClient
}.

Record world : Type := {
  self : Self;
  trace : list effect
}.

(** A coroutine of the consumer: it may change [self], it leaves a trace,
    and it returns or raises. *)
Definition M (A : Type) : Type := world -> result A * world.

Definition ret {A : Type} (a : A) : M A := fun w => (Ok a, w).

Definition bindM {A B : Type} (c : M A) (k : A -> M B) : M B :=
  fun w =>
    match c w with
    | (Ok a, w') => k a w'
    | (Raise e, w') => (Raise e, w')
    end.

Definition lift {A : Type} (r : result A) : M A := fun w => (r, w).

Definition try_except {A : Type} (c : M A) (h : exn -> M A) : M A :=
  fun w =>
    match c w with
    | (Ok a, w') => (Ok a, w')
    | (Raise e, w') => h e w'
    end.

Definition emit (e : effect) : M unit :=
  fun w => (Ok tt, {| self := self w; trace := trace w ++ [e] |}).

Definition get_self : M Self := fun w => (Ok (self w), w).

Definition set_subscribed_trips (s : list json) : M unit :=
  fun w => (Ok tt, {| self := {| channel_name := channel_name (self w);
                                 subscribed_trips := s;
                                 kafka_producer := kafka_producer (self w) |};
                      trace := trace w |}).

Declare Scope consumer_scope.
Delimit Scope consumer_scope with consumer.
Notation "x <- c1 ;; c2" := (bindM c1 (fun x => c2))
  (at level 61, c1 at next level, right associativity) : consumer_scope.
Notation "c1 ;; c2" := (bindM c1 (fun _ => c2))
  (at level 61, right associativity) : consumer_scope.

Local Open Scope string_scope.
Local Open Scope consumer_scope.

Definition message (type : string) (data : json) : json :=
  JDict [("type", JStr type); ("data", data)].

Definition error_message (text : string) : json :=
  message "ERROR" (JDict [("message", JStr text)]).

Definition status_message (type : string) (trip_id : json) : json :=
  message type (JDict [("trip_id", trip_id); ("status", JStr "success")]).

(** ** The channel layer

    [channels.layers]: the layer checks every group name it is given and
    raises [TypeError] for one that is not valid.  A valid name has
    fewer than 100 characters, at least one, and only ASCII letters,
    digits, hyphens, underscores and periods.  (The pattern of the layer
    is a little wider: it also lets through a newline that ends the
    name, and the decimal digits outside ASCII.  Such names are treated
    as refused here.) *)
Definition group_name_char (c : Ascii.ascii) : bool :=
  let n := Ascii.nat_of_ascii c in
  ((48 <=? n) && (n <=? 57) || (65 <=? n) && (n <=? 90) ||
   (97 <=? n) && (n <=? 122) ||
   (n =? 45) || (n =? 95) || (n =? 46))%nat.

Definition valid_group_name (name : string) : bool :=
  (0 <? String.length name)%nat && (String.length name <? 100)%nat &&
  forallb group_name_char (list_ascii_of_string name).

Arguments valid_group_name : simpl never.

(** [channel_layer.group_add(group, channel)] and
    [channel_layer.group_send(group, message)]: [TypeError] for a group
    name that is not valid. *)
Definition group_add (group channel : string) : M unit :=
  if valid_group_name group then emit (GroupAdd group channel)
  else lift (Raise TypeError).

Definition group_send (group : string) (event : json) : M unit :=
  if valid_group_name group then emit (GroupSend group event)
  else lift (Raise TypeError).

(** [channel_layer.group_discard(group, channel)].  The consumer calls
    it for a trip id it finds in [subscribed_trips], which holds the ids
    whose group [group_add] has accepted; the layer is taken to accept
    the call. *)
Definition group_discard (group channel : string) : M unit :=
  emit (GroupDiscard group channel).

Section Consumer.

(** [str(v)], as an f-string formats a value. *)
Variable str : json -> string.

(** [Trip.objects.filter(id=trip_id).exists()] *)
Variable trip_exists : json -> result bool.

(** [AIOKafkaProducer.send_and_wait] *)
Variable send_and_wait : string -> json -> result unit.

Definition send_json (content : json) : M unit := emit (SendJson content).

Definition _get_group_name (trip_id : json) : string :=
  "trip_location_" ++ str trip_id.

Definition _broadcast_location (location_data : json) : M unit :=
  trip_id <- lift (get location_data "trip_id" JNull) ;;
  let group_name := "trip_location_" ++ str trip_id in
  group_send group_name
    (JDict [("type", JStr "trip_location_update");
            ("data", location_data)]).

Definition publish_location (client : KafkaProducerClient)
  (location_data : json) : M unit :=
  if negb (producer client) then _broadcast_location location_data
  else
    try_except
      (lift (send_and_wait (topic client) location_data) ;;
       emit (KafkaSend (topic client) location_data))
      (fun _ => _broadcast_location location_data).

Definition _handle_publish_location (data : json) : M unit :=
  trip_id <- lift (get data "trip_id" JNull) ;;
  latitude <- lift (get data "latitude" JNull) ;;
  longitude <- lift (get data "longitude" JNull) ;;
  timestamp <- lift (get data "timestamp" JNull) ;;
  if negb (truthy trip_id && is_not_none latitude && is_not_none longitude)
  then send_json (error_message
                    "Missing required fields: trip_id, latitude, longitude")
  else
    found <- lift (trip_exists trip_id) ;;
    if negb found
    then send_json (error_message ("Trip " ++ str trip_id ++ " not found"))
    else
      let location_update :=
        JDict [("trip_id", trip_id); ("latitude", latitude);
               ("longitude", longitude); ("timestamp", timestamp)] in
      try_except
        (me <- get_self ;;
         match kafka_producer me with
         | None => lift (Raise AttributeError)
         | Some client => publish_location client location_update
         end ;;
         send_json (status_message "LOCATION_PUBLISHED" trip_id))
        (fun _ => send_json (error_message "Failed to publish location update")).

Definition _handle_subscribe (data : json) : M unit :=
  trip_id <- lift (get data "trip_id" JNull) ;;
  if negb (truthy trip_id) then send_json (error_message "Missing trip_id")
  else
    found <- lift (trip_exists trip_id) ;;
    if negb found
    then send_json (error_message ("Trip " ++ str trip_id ++ " not found"))
    else
      let group_name := _get_group_name trip_id in
      me <- get_self ;;
      group_add group_name (channel_name me) ;;
      s <- lift (set_add (subscribed_trips me) trip_id) ;;
      set_subscribed_trips s ;;
      send_json (status_message "SUBSCRIBED" trip_id).

Definition _unsubscribe_from_trip (trip_id : json) : M unit :=
  me <- get_self ;;
  subscribed <- lift (set_contains (subscribed_trips me) trip_id) ;;
  if subscribed then
    let group_name := _get_group_name trip_id in
    group_discard group_name (channel_name me) ;;
    s <- lift (set_discard (subscribed_trips me) trip_id) ;;
    set_subscribed_trips s
  else ret tt.

Definition _handle_unsubscribe (data : json) : M unit :=
  trip_id <- lift (get data "trip_id" JNull) ;;
  if negb (truthy trip_id) then send_json (error_message "Missing trip_id")
  else
    _unsubscribe_from_trip trip_id ;;
    send_json (status_message "UNSUBSCRIBED" trip_id).

(** The dispatch table of [receive_json]. *)
Definition handlers : list (string * (json -> M unit)) :=
  [("PUBLISH_LOCATION", _handle_publish_location);
   ("SUBSCRIBE_TO_TRIP_LOCATION", _handle_subscribe);
   ("UNSUBSCRIBE_FROM_TRIP_LOCATION", _handle_unsubscribe)].

(** [handlers.get(message_type)]: the key is hashed first; a key that is
    no string equals none of the three. *)
Definition handlers_get (message_type : json)
  : result (option (json -> M unit)) :=
  if hashable message_type then
    Ok (match message_type with
        | JStr s => lookup s handlers
        | _ => None
        end)
  else Raise TypeError.

Definition receive_json (content : json) : M unit :=
  message_type <- lift (get content "type" JNull) ;;
  data <- lift (get content "data" (JDict [])) ;;
  handler <- lift (handlers_get message_type) ;;
  match handler with
  | Some handle => handle data
  | None =>
      send_json (error_message ("Unknown message type: " ++ str message_type))
  end.

(** [KeyError]: an exception class with no constructor of its own is
    named. *)
Definition KeyError : exn := LibraryError "KeyError".

(** [d[key]] for a string key: only a dict can be subscripted by one. *)
Definition subscript (d : json) (key : string) : result json :=
  match d with
  | JDict items =>
      match lookup key items with
      | Some v => Ok v
      | None => Raise KeyError
      end
  | _ => Raise TypeError
  end.

(** [for i in its: await body(i)] *)
Fixpoint for_each {I : Type} (body : I -> M unit) (its : list I) : M unit :=
  match its with
  | [] => ret tt
  | i :: rest => body i ;; for_each body rest
  end.

(** [AIOKafkaProducer.stop] *)
Variable producer_stop : result unit.

(** [KafkaProducerClient.stop] *)
Definition stop (client : KafkaProducerClient) : M unit :=
  if producer client then lift producer_stop else ret tt.

(** [disconnect]: the loop runs over a copy of the set, taken before the
    first trip is unsubscribed. *)
Definition disconnect (close_code : json) : M unit :=
  me <- get_self ;;
  for_each _unsubscribe_from_trip (subscribed_trips me) ;;
  me <- get_self ;;
  match kafka_producer me with
  | Some client => stop client
  | None => ret tt
  end.

(** [trip_location_update]: the handler of the events that
    [_broadcast_location] and the consumer loop send to a group. *)
Definition trip_location_update (event : json) : M unit :=
  data <- lift (subscript event "data") ;;
  send_json (message "TRIP_LOCATION_UPDATE" data).

End Consumer.

End TripLocationConsumer.

(* ================================================================== *)
(** * trips/kafka_client.py: the consumer loop                         *)
(* ================================================================== *)

Module KafkaConsumerClient.

Import TripLocationConsumer.

(** One turn of [async for message in self.consumer]: a message, with the
    value of [self.running] when it arrives, or the exception the
    iterator raises. *)
Inductive turn : Type :=
| Message (running : bool) (value : json)
| Failure (e : exn).

Section Client.

(** [str(v)], as an f-string formats a value. *)
Variable str : json -> string.

(** The [try] block of [consume]: what was sent to the channel layer,
    whose [group_send] raises [TypeError] for a group name that is not
    valid, and how the block ended. *)
Fixpoint consume_loop (turns : list turn) (sent : list effect)
  : result unit * list effect :=
  match turns with
  | [] => (Ok tt, sent)
  | Failure e :: _ => (Raise e, sent)
  | Message running location_data :: rest =>
      if negb running then (Ok tt, sent)   (* break *)
      else
        match get location_data "trip_id" JNull with
        | Raise e => (Raise e, sent)
        | Ok trip_id =>
            if truthy trip_id then
              let group_name := ("trip_location_" ++ str trip_id)%string in
              if valid_group_name group_name then
                consume_loop rest
                  (sent ++ [GroupSend group_name
                              (JDict [("type"%string, JStr "trip_location_update");
                                      ("data"%string, location_data)])])
              else (Raise TypeError, sent)
            else consume_loop rest sent
        end
  end.

(** [consume]: [consumer] tells whether [start] got a consumer. *)
Definition consume (consumer : bool) (turns : list turn) (sent : list effect)
  : result unit * list effect :=
  if negb consumer then (Ok tt, sent)
  else
    match consume_loop turns sent with
    | (Ok tt, sent') => (Ok tt, sent')
    | (Raise _, sent') => (Ok tt, sent')   (* except Exception: log *)
    end.

End Client.

End KafkaConsumerClient.

(* ================================================================== *)
(** * trips/services/directions.py                                     *)
(* ================================================================== *)

Module GoogleDirectionsService.

Import TripLocationConsumer.
Local Open Scope string_scope.

(** How [requests.get] followed by [raise_for_status] ends: a response,
    of which only [response.json()] is used (a value or the exception it
    raises), a [requests.RequestException] with its text, or another
    exception. *)
Inductive fetched : Type :=
| Response (json_body : result json)
| RequestException (text : string)
| OtherException (e : exn).

(** How [get_route_geometry] ends: it returns, it raises the
    [DirectionsAPIError] of this module, or another exception escapes. *)
Inductive outcome : Type :=
| Return (polyline : json)
| DirectionsAPIError (message : string)
| Escapes (e : exn).

(** [routes[0]] *)
Definition first_item (routes : json) : result json :=
  match routes with
  | JList (x :: _) => Ok x
  | JList [] => Raise IndexError
  | JStr (String c _) => Ok (JStr (String c EmptyString))
  | JStr EmptyString => Raise IndexError
  | JDict _ => Raise KeyError
  | _ => Raise TypeError
  end.

(** [v != 'OK'] *)
Definition differs_from_OK (v : json) : bool :=
  match v with
  | JStr s => negb (String.eqb s "OK")
  | _ => true
  end.

Definition BASE_URL : string :=
  "https://maps.googleapis.com/maps/api/directions/json".

Section Service.

(** [requests.get(url, params=params, timeout=10)] and
    [response.raise_for_status()]. *)
Variable requests_get : string -> list (string * string) -> fetched.

(** [str(v)] for a JSON value and for a float, as an f-string formats
    them. *)
Variable str : json -> string.
Variable str_float : R -> string.

(** [settings.GOOGLE_MAPS_API_KEY] *)
Variable GOOGLE_MAPS_API_KEY : string.

Definition __init__ (api_key : option string) : string :=
  match api_key with
  | Some key => key
  | None => GOOGLE_MAPS_API_KEY
  end.

(** The part of [get_route_geometry] after the request, on the decoded
    body. *)
Definition read_route (data : json) : outcome :=
  match get data "status" JNull with
  | Raise e => Escapes e
  | Ok status =>
    if differs_from_OK status then
      match get data "status" (JStr "Unknown error") with
      | Raise e => Escapes e
      | Ok fallback =>
        match get data "error_message" fallback with
        | Raise e => Escapes e
        | Ok error_message =>
            DirectionsAPIError ("Directions API error: " ++ str error_message)
        end
      end
    else
      match get data "routes" (JList []) with
      | Raise e => Escapes e
      | Ok routes =>
        if negb (truthy routes) then
          DirectionsAPIError "No route found between the specified coordinates"
        else
          match first_item routes with
          | Raise e => Escapes e
          | Ok route =>
            match get route "overview_polyline" (JDict []) with
            | Raise e => Escapes e
            | Ok overview =>
              match get overview "points" (JStr EmptyString) with
              | Raise e => Escapes e
              | Ok polyline =>
                  if negb (truthy polyline)
                  then DirectionsAPIError "No polyline data in the response"
                  else Return polyline
              end
            end
          end
      end
  end.

Definition get_route_geometry (api_key : string)
  (origin_lat origin_lng dest_lat dest_lng : R) : outcome :=
  if RouteMatchingService.str_falsy api_key
  then DirectionsAPIError "Google Maps API key is not configured"
  else
    let params :=
      [("origin", str_float origin_lat ++ "," ++ str_float origin_lng);
       ("destination", str_float dest_lat ++ "," ++ str_float dest_lng);
       ("key", api_key);
       ("mode", "driving")] in
    match requests_get BASE_URL params with
    | RequestException text =>
        DirectionsAPIError ("API request failed: " ++ text)
    | OtherException e => Escapes e
    | Response (Raise e) => Escapes e
    | Response (Ok data) => read_route data
    end.

End Service.

End GoogleDirectionsService.

(* ================================================================== *)
(** * trips/views.py: the match endpoint                               *)
(* ================================================================== *)

Module TripMatchView.

Import RouteMatchingService.

(** The validated query parameters ([MatchQuerySerializer]). *)
Record MatchQuery : Type := {
  starting_latitude : R;
  starting_longitude : R;
  destination_latitude : R;
  destination_longitude : R;
  no_of_seats_required : Z;
  intersection_radius_meters : R
}.

(** [Trip.objects.filter(is_ride_requests_allowed=True,
    available_seats__gte=seats).exclude(route_geometry='')] over the rows
    of the table, in the order of the query. *)
Definition eligible_trips (rows : list models.Trip) (seats : Z)
  : list models.Trip :=
  filter (fun trip => negb (str_falsy (models.route_geometry trip)))
    (filter (fun trip =>
               models.is_ride_requests_allowed trip &&
               (models.available_seats trip >=? seats)%Z)
            rows).

Section View.

Variable polyline_decode : string -> result (list (R * R)).
Variable DEFAULT_MATCHING_RADIUS_METERS : R.
Variable DEFAULT_AVERAGE_SPEED_KMH : R.

(** The body of [get] once the query is valid: the matches, which the
    response lists with their number. *)
Definition get (rows : list models.Trip) (data : MatchQuery)
  : result (Z * list MatchedTrip) :=
  let trips := eligible_trips rows (no_of_seats_required data) in
  let matching_service :=
    __init__ DEFAULT_MATCHING_RADIUS_METERS DEFAULT_AVERAGE_SPEED_KMH
      (Some (intersection_radius_meters data)) None in
  matches <- find_matches polyline_decode matching_service trips
               (starting_latitude data) (starting_longitude data)
               (destination_latitude data) (destination_longitude data)
               (no_of_seats_required data) ;;
  Ok (len matches, matches).

End View.

End TripMatchView.

(* ================================================================== *)
(** * Notions the statements use                                       *)
(* ================================================================== *)

Import DistanceService.
Import RouteMatchingService.

(** The haversine term [a] of two points. *)
Definition hav_a (lat1 lon1 lat2 lon2 : R) : R :=
  sin (math.radians (lat2 - lat1) / 2) ^ 2 +
  cos (math.radians lat1) * cos (math.radians lat2) *
  sin (math.radians (lon2 - lon1) / 2) ^ 2.

(** The number [haversine_distance] returns for two (lat, lon) pairs
    ([haversine_distance_ok] below). *)
Definition haversine (p q : R * R) : R :=
  let a := hav_a (fst p) (snd p) (fst q) (snd q) in
  EARTH_RADIUS_METERS * (2 * math.atan2 (sqrt a) (sqrt (1 - a))).

(** The length of a polyline: the haversine distances of its consecutive
    segments, added up. *)
Fixpoint path_length (pts : list (R * R)) : R :=
  match pts with
  | p :: (q :: _) as rest => haversine p q + path_length rest
  | _ => 0
  end.

(** The vertices [i], [i+1], ..., [j] of a route. *)
Definition vertices_between (route : list (R * R)) (i j : nat) : list (R * R) :=
  firstn (j - i + 1) (skipn i route).

(** [ds] lists the distance along [route] from its first vertex to each
    of its first [m] vertices. *)
Definition cumulative_upto (route : list (R * R)) (m : nat) (ds : list R) : Prop :=
  List.length ds = m /\
  nth_error ds 0 = Some 0 /\
  forall j p p' d,
    nth_error route j = Some p -> nth_error route (S j) = Some p' ->
    nth_error ds j = Some d -> (S j < m)%nat ->
    nth_error ds (S j) = Some (d + haversine p p').

(** What the nearest-vertex scan for [q] knows after the vertices [pre]:
    nothing yet, or a vertex that is nearest among them and the first
    such. *)
Definition nearest_inv (q : R * R) (pre : list (R * R)) (st : efloat * Z) : Prop :=
  (pre = [] /\ st = (PosInf, 0%Z)) \/
  (exists p, fst st = Fin (haversine q p) /\
             (0 <= snd st < len pre)%Z /\
             nth_error pre (Z.to_nat (snd st)) = Some p /\
             (forall j p', nth_error pre j = Some p' ->
                           haversine q p <= haversine q p') /\
             (forall j p', (j < Z.to_nat (snd st))%nat ->
                           nth_error pre j = Some p' ->
                           haversine q p < haversine q p')).

(** Keep the [Some] results of [f], in the order of the list. *)
Definition filter_map {A B : Type} (f : A -> option B) : list A -> list B :=
  fix go (l : list A) : list B :=
    match l with
    | [] => []
    | x :: rest => match f x with
                   | Some y => y :: go rest
                   | None => go rest
                   end
    end.

(** [f] on every element in turn, up to the first exception. *)
Fixpoint map_result {A B : Type} (f : A -> result B) (l : list A)
  : result (list B) :=
  match l with
  | [] => Ok []
  | x :: rest => y <- f x ;; ys <- map_result f rest ;; Ok (y :: ys)
  end.

(** The results that are not [None], in their order. *)
Definition somes {B : Type} (l : list (option B)) : list B :=
  filter_map (fun o => o) l.

Section MatchNotions.

Variable polyline_decode : string -> result (list (R * R)).
Variable self : Self.
Variables rider_start_lat rider_start_lon rider_dest_lat rider_dest_lon : R.
Variable seats_required : Z.

(** The seven checks of the specification, in its order; a later check
    is stated on what the earlier ones produced. *)
Definition match_conditions (trip : models.Trip) : Prop :=
  models.is_ride_requests_allowed trip = true /\
  (models.available_seats trip >= seats_required)%Z /\
  models.route_geometry trip <> EmptyString /\
  exists route_points,
    polyline_decode (models.route_geometry trip) = Ok route_points /\
    route_points <> [] /\
    exists pickup_result dropoff_result,
      find_nearest_point_on_route rider_start_lat rider_start_lon route_points
        = Ok (Some pickup_result) /\
      le_e (distance_to_point pickup_result) (radius_meters self) /\
      find_nearest_point_on_route rider_dest_lat rider_dest_lon route_points
        = Ok (Some dropoff_result) /\
      le_e (distance_to_point dropoff_result) (radius_meters self) /\
      (route_index dropoff_result > route_index pickup_result)%Z.

(** [m] is the record [_evaluate_trip] builds from the two nearest
    points. *)
Definition matched_trip (trip : models.Trip) (route_points : list (R * R))
  (pickup_result dropoff_result : NearestPointResult) (m : MatchedTrip) : Prop :=
  trip_id m = models.id trip /\
  pickup_latitude m = latitude (point pickup_result) /\
  pickup_longitude m = longitude (point pickup_result) /\
  dropoff_latitude m = latitude (point dropoff_result) /\
  dropoff_longitude m = longitude (point dropoff_result) /\
  pickup_distance_meters m = distance_to_point pickup_result /\
  dropoff_distance_meters m = distance_to_point dropoff_result /\
  calculate_route_distance_between_points route_points
    (route_index pickup_result) (route_index dropoff_result)
    = Ok (rider_trip_distance_meters m) /\
  available_seats m = models.available_seats trip /\
  exists eta_minutes,
    calculate_eta_minutes (distance_from_start (point pickup_result))
      (average_speed_kmh self) = Ok eta_minutes /\
    estimated_arrival_minutes m = round2 eta_minutes.

(** What [_evaluate_trip] returns for a trip; [None] stands in where it
    does not return. *)
Definition evaluation (trip : models.Trip) : option MatchedTrip :=
  match _evaluate_trip polyline_decode self trip rider_start_lat
          rider_start_lon rider_dest_lat rider_dest_lon seats_required with
  | Ok o => o
  | Raise _ => None
  end.

End MatchNotions.

(** A route of two vertices on the equator, one degree apart, and a
    decoder that returns it. *)
Definition equator_route : list (R * R) := [(0, 0); (0, 1)].

Definition decode_equator (_ : string) : result (list (R * R)) :=
  Ok equator_route.

Definition decode_fails (_ : string) : result (list (R * R)) :=
  Raise (LibraryError "decode").

Definition sample_trip : models.Trip :=
  {| models.id := 7;
     models.starting_latitude := 0;
     models.starting_longitude := 0;
     models.destination_latitude := 0;
     models.destination_longitude := 1;
     models.route_geometry := "???_ibE";
     models.available_seats := 3;
     models.is_ride_requests_allowed := true |}.

Definition sample_service : Self :=
  {| radius_meters := 500; average_speed_kmh := 30 |}.

(** An inbound message whose type tag is a JSON array. *)
Definition list_typed_message : TripLocationConsumer.json :=
  TripLocationConsumer.JDict
    [("type"%string, TripLocationConsumer.JList []);
     ("data"%string, TripLocationConsumer.JDict [])].

(** The three message types [receive_json] knows. *)
Definition known_type (message_type : TripLocationConsumer.json) : Prop :=
  message_type = TripLocationConsumer.JStr "PUBLISH_LOCATION" \/
  message_type = TripLocationConsumer.JStr "SUBSCRIBE_TO_TRIP_LOCATION" \/
  message_type = TripLocationConsumer.JStr "UNSUBSCRIBE_FROM_TRIP_LOCATION".


(** ** Notions of the further properties *)

Definition lenient_service : Self :=
  {| radius_meters := 1000; average_speed_kmh := 30 |}.


Definition decode_single (_ : string) : result (list (R * R)) := Ok [(0, 0)].


Import TripLocationConsumer.

(** The subscribed set holds hashable values, no two of them equal. *)
Fixpoint set_ok (s : list json) : Prop :=
  match s with
  | [] => True
  | x :: rest =>
      hashable x = true /\ existsb (key_eq x) rest = false /\ set_ok rest
  end.

Definition is_reply (e : effect) : bool :=
  match e with
  | SendJson _ => true
  | _ => false
  end.


(** The update [_handle_publish_location] hands to the producer. *)
Definition location_update (trip_id latitude longitude timestamp : json) : json :=
  JDict [("trip_id"%string, trip_id); ("latitude"%string, latitude);
         ("longitude"%string, longitude); ("timestamp"%string, timestamp)].

(** The event that carries an update to the group of its trip. *)
Definition group_event (location_data : json) : json :=
  JDict [("type"%string, JStr "trip_location_update");
         ("data"%string, location_data)].


(** [w] after the effects [effs]. *)
Definition after (w : world) (effs : list effect) : world :=
  {| self := self w; trace := trace w ++ effs |}.

(** [w] after the effects [effs], with the subscribed set [s]. *)
Definition after_with (w : world) (s : list json) (effs : list effect) : world :=
  {| self := {| channel_name := channel_name (self w);
                subscribed_trips := s;
                kafka_producer := kafka_producer (self w) |};
     trace := trace w ++ effs |}.

Ltac run :=
  unfold bindM, lift, ret, group_discard, emit, get_self,
         set_subscribed_trips, try_except, after, after_with;
  cbn [self trace fst snd channel_name subscribed_trips kafka_producer].


(** A message of the given type with the given payload. *)
Definition request (content : json) (type : string) (data : json) : Prop :=
  get content "type" JNull = Ok (JStr type) /\
  get content "data" (JDict []) = Ok data.

Definition no_reply (effs : list effect) : Prop :=
  forallb (fun e => negb (is_reply e)) effs = true.

(** What one call of a handler may do: it keeps the channel name and the
    producer, keeps the subscribed set a set, only adds to the trace, and
    sends one reply, the last thing it does, when it returns, and none
    when it raises. *)
Definition handled (w : world) (r : result unit) (w' : world) : Prop :=
  channel_name (self w') = channel_name (self w) /\
  kafka_producer (self w') = kafka_producer (self w) /\
  (set_ok (subscribed_trips (self w)) -> set_ok (subscribed_trips (self w'))) /\
  exists effs,
    trace w' = trace w ++ effs /\
    match r with
    | Ok _ => exists pre reply, effs = pre ++ [SendJson reply] /\ no_reply pre
    | Raise _ => no_reply effs
    end.

Ltac handled_trace :=
  match goal with
  | |- exists effs, trace ?w = trace ?w ++ effs /\ _ =>
      exists []; split; [now rewrite app_nil_r|]
  | |- exists effs, ?t ++ ?e = ?t ++ effs /\ _ =>
      exists e; split; [reflexivity|]
  end;
  match goal with
  | |- exists pre reply, [SendJson ?r] = _ /\ _ =>
      exists [], r; split; reflexivity
  | |- exists pre reply, [?a; SendJson ?r] = _ /\ _ =>
      exists [a], r; split; reflexivity
  | |- no_reply _ => reflexivity
  end.

Ltac handled_solve :=
  try (let E := fresh in intros E; injection E as <- <-);
  unfold handled, after, after_with; cbn [self trace channel_name
    subscribed_trips kafka_producer];
  split; [reflexivity|]; split; [reflexivity|];
  split; [try (intros; assumption)|handled_trace].


(** A turn that lets the loop go on: a message that arrives while the
    consumer runs and whose value is a JSON object. *)
Definition healthy (t : KafkaConsumerClient.turn) : Prop :=
  exists items, t = KafkaConsumerClient.Message true (JDict items).

(** What the loop sends for a healthy turn. *)
Definition broadcast_of (str : json -> string) (t : KafkaConsumerClient.turn) : option effect :=
  match t with
  | KafkaConsumerClient.Message _ location_data =>
      match get location_data "trip_id" JNull with
      | Ok trip_id =>
          if truthy trip_id
          then Some (GroupSend (_get_group_name str trip_id)
                               (group_event location_data))
          else None
      | Raise _ => None
      end
  | KafkaConsumerClient.Failure _ => None
  end.


(** A healthy turn whose broadcast, if it has one, goes to a group the
    channel layer accepts. *)
Definition accepted (str : json -> string) (t : KafkaConsumerClient.turn) : Prop :=
  healthy t /\
  forall group_name event,
    broadcast_of str t = Some (GroupSend group_name event) ->
    valid_group_name group_name = true.


(** The payload of a PUBLISH_LOCATION message. *)
Definition publish_fields (data trip_id latitude longitude timestamp : json) : Prop :=
  get data "trip_id" JNull = Ok trip_id /\
  get data "latitude" JNull = Ok latitude /\
  get data "longitude" JNull = Ok longitude /\
  get data "timestamp" JNull = Ok timestamp.


(** Sample values for the gateway: trip 7 exists, the broker is away. *)
Definition sample_str (v : json) : string :=
  match v with
  | JStr s => s
  | _ => "7"
  end.

Definition every_trip_exists (_ : json) : result bool := Ok true.

Definition no_trip_exists (_ : json) : result bool := Ok false.

Definition send_succeeds (_ : string) (_ : json) : result unit := Ok tt.

Definition sample_client : KafkaProducerClient :=
  {| producer := false; topic := "trip-locations" |}.

Definition sample_world (subscribed : list json) : world :=
  {| self := {| channel_name := "channel.1";
                subscribed_trips := subscribed;
                kafka_producer := Some sample_client |};
     trace := [] |}.

Definition trip_7_data : json := JDict [("trip_id"%string, JInt 7)].

Definition position_data : json :=
  JDict [("trip_id"%string, JInt 7); ("latitude"%string, JInt 6);
         ("longitude"%string, JInt 3); ("timestamp"%string, JStr "noon")].

Definition position_without_latitude : json :=
  JDict [("trip_id"%string, JInt 7); ("longitude"%string, JInt 3)].

(** A Directions response with one route. *)
Definition directions_body : json :=
  JDict [("status"%string, JStr "OK");
         ("routes"%string,
          JList [JDict [("overview_polyline"%string,
                         JDict [("points"%string, JStr "???_ibE")])]])].

Definition fetch_directions (_ : string) (_ : list (string * string))
  : GoogleDirectionsService.fetched :=
  GoogleDirectionsService.Response (Ok directions_body).

Definition str_of_float (_ : R) : string := "0.0".


Import RouteMatchingService.

(* ================================================================== *)
(** * Lemmas                                                           *)
(* ================================================================== *)

(** ** Real analysis of the haversine formula *)


Lemma hav_a_range lat1 lon1 lat2 lon2 :
  0 <= hav_a lat1 lon1 lat2 lon2 <= 1.
Proof.
  unfold hav_a, math.radians.
  set (x := (lat2 - lat1) * (PI / 180) / 2).
  set (y := (lat2 + lat1) * (PI / 180) / 2).
  set (z := (lon2 - lon1) * (PI / 180) / 2).
  replace (lat1 * (PI / 180)) with (y - x) by (unfold x, y; lra).
  replace (lat2 * (PI / 180)) with (y + x) by (unfold x, y; lra).
  rewrite cos_minus, cos_plus.
  pose proof (sin2_cos2 x) as Hx. pose proof (sin2_cos2 y) as Hy.
  pose proof (sin2_cos2 z) as Hz. unfold Rsqr in *.
  generalize dependent (sin x). generalize dependent (cos x).
  generalize dependent (sin y). generalize dependent (cos y).
  generalize dependent (sin z). generalize dependent (cos z).
  intros cz sz Hz cy sy Hy cx sx Hx. simpl.
  assert (Ht : 0 <= sz * sz <= 1) by nra.
  assert (Hsx : 0 <= sx * sx <= 1) by nra.
  assert (Hcy : 0 <= cy * cy <= 1) by nra.
  assert (K : (cy * cx + sy * sx) * (cy * cx - sy * sx) = cy * cy - sx * sx).
  { transitivity (cy * cy * (cx * cx) - sy * sy * (sx * sx)); [ring|].
    replace (cx * cx) with (1 - sx * sx) by lra.
    replace (sy * sy) with (1 - cy * cy) by lra. ring. }
  assert (E : sx * (sx * 1) + (cy * cx + sy * sx) * (cy * cx - sy * sx) * (sz * (sz * 1))
            = (1 - sz * sz) * (sx * sx) + (sz * sz) * (cy * cy)).
  { rewrite K. ring. }
  rewrite E. split; nra.
Qed.

Lemma haversine_distance_ok lat1 lon1 lat2 lon2 :
  haversine_distance lat1 lon1 lat2 lon2 = Ok (haversine (lat1, lon1) (lat2, lon2)).
Proof.
  pose proof (hav_a_range lat1 lon1 lat2 lon2) as [H0 H1].
  unfold haversine_distance, haversine. cbn [fst snd].
  fold (hav_a lat1 lon1 lat2 lon2).
  unfold math.sqrt.
  destruct (Rlt_dec (hav_a lat1 lon1 lat2 lon2) 0) as [C|_]; [lra|].
  cbn [bind].
  destruct (Rlt_dec (1 - hav_a lat1 lon1 lat2 lon2) 0) as [C|_]; [lra|].
  reflexivity.
Qed.

Lemma atan_nonneg x : 0 <= x -> 0 <= atan x.
Proof.
  intros [H|H].
  - left. rewrite <- atan_0. now apply atan_increasing.
  - subst. rewrite atan_0. lra.
Qed.

Lemma atan2_nonneg y x : 0 <= y -> 0 <= x -> 0 <= math.atan2 y x.
Proof.
  intros Hy Hx. unfold math.atan2.
  pose proof PI_RGT_0 as HPI.
  destruct (Rlt_dec 0 x) as [Hpos|Hn].
  - apply atan_nonneg. unfold Rdiv. apply Rmult_le_pos; [assumption|].
    left. now apply Rinv_0_lt_compat.
  - destruct (Rlt_dec x 0); [lra|].
    destruct (Rlt_dec 0 y); [lra|].
    destruct (Rlt_dec y 0); lra.
Qed.

Lemma haversine_nonneg p q : 0 <= haversine p q.
Proof.
  unfold haversine. cbv zeta.
  pose proof (hav_a_range (fst p) (snd p) (fst q) (snd q)) as [H0 H1].
  pose proof (atan2_nonneg _ _ (sqrt_pos (hav_a (fst p) (snd p) (fst q) (snd q)))
                (sqrt_pos (1 - hav_a (fst p) (snd p) (fst q) (snd q)))) as H.
  unfold EARTH_RADIUS_METERS. nra.
Qed.

Lemma hav_a_same lat lon : hav_a lat lon lat lon = 0.
Proof.
  unfold hav_a, math.radians.
  replace ((lat - lat) * (PI / 180) / 2) with 0 by lra.
  replace ((lon - lon) * (PI / 180) / 2) with 0 by lra.
  rewrite sin_0. ring.
Qed.

Lemma haversine_same_point p : haversine p p = 0.
Proof.
  unfold haversine. cbv zeta. rewrite hav_a_same.
  rewrite sqrt_0, Rminus_0_r, sqrt_1.
  unfold math.atan2.
  destruct (Rlt_dec 0 1); [|lra].
  unfold Rdiv. rewrite Rmult_0_l, atan_0. ring.
Qed.

Lemma atan2_pos y x : 0 < y -> 0 <= x -> 0 < math.atan2 y x.
Proof.
  intros Hy Hx. unfold math.atan2.
  pose proof PI_RGT_0 as HPI.
  destruct (Rlt_dec 0 x) as [Hpos|Hn].
  - rewrite <- atan_0. apply atan_increasing.
    unfold Rdiv. apply Rmult_lt_0_compat; [assumption|].
    now apply Rinv_0_lt_compat.
  - destruct (Rlt_dec x 0); [lra|].
    destruct (Rlt_dec 0 y); lra.
Qed.

Lemma haversine_pos p q :
  0 < hav_a (fst p) (snd p) (fst q) (snd q) -> 0 < haversine p q.
Proof.
  intros Ha. unfold haversine. cbv zeta.
  pose proof (atan2_pos _ _ (sqrt_lt_R0 _ Ha)
                (sqrt_pos (1 - hav_a (fst p) (snd p) (fst q) (snd q)))) as H.
  unfold EARTH_RADIUS_METERS. nra.
Qed.

(** One degree of longitude along the equator is a positive distance. *)
Lemma haversine_equator_pos : 0 < haversine (0, 0) (0, 1).
Proof.
  apply haversine_pos. cbn [fst snd]. unfold hav_a, math.radians.
  replace ((0 - 0) * (PI / 180) / 2) with 0 by lra.
  replace (0 * (PI / 180)) with 0 by lra.
  replace ((1 - 0) * (PI / 180) / 2) with (PI / 360) by lra.
  rewrite sin_0, cos_0.
  assert (0 < sin (PI / 360)).
  { pose proof PI_RGT_0. apply sin_gt_0; lra. }
  nra.
Qed.


(** ** Subscripts, ranges and loops *)


Lemma len_app {A} (l l' : list A) : len (l ++ l') = (len l + len l')%Z.
Proof. unfold len. rewrite length_app. lia. Qed.

Lemma len_cons {A} (x : A) (l : list A) : len (x :: l) = (len l + 1)%Z.
Proof. unfold len. cbn [List.length]. lia. Qed.

Lemma len_nonneg {A} (l : list A) : (0 <= len l)%Z.
Proof. unfold len. lia. Qed.

Lemma getitem_nth_error {A} (l : list A) (n : nat) (x : A) :
  nth_error l n = Some x -> getitem l (Z.of_nat n) = Ok x.
Proof.
  intros H. unfold getitem.
  destruct (Z.ltb_spec (Z.of_nat n) 0); [lia|].
  destruct (Z.ltb_spec (Z.of_nat n) 0); [lia|].
  now rewrite Nat2Z.id, H.
Qed.

Lemma getitem_Z {A} (l : list A) (i : Z) (x : A) :
  (0 <= i)%Z -> nth_error l (Z.to_nat i) = Some x -> getitem l i = Ok x.
Proof.
  intros Hi H. rewrite <- (Z2Nat.id i Hi). now apply getitem_nth_error.
Qed.

Lemma getitem_in_range {A} (l : list A) (i : Z) :
  (0 <= i < len l)%Z -> exists x, nth_error l (Z.to_nat i) = Some x /\ getitem l i = Ok x.
Proof.
  intros Hi. unfold len in Hi.
  destruct (nth_error l (Z.to_nat i)) as [x|] eqn:E.
  - exists x. split; [reflexivity|]. apply getitem_Z; [lia|assumption].
  - apply nth_error_None in E. lia.
Qed.

Lemma range_nil a b : (b <= a)%Z -> range a b = [].
Proof.
  intros H. unfold range. replace (Z.to_nat (b - a)) with 0%nat by lia. reflexivity.
Qed.

Lemma range_cons a b : (a < b)%Z -> range a b = a :: range (a + 1) b.
Proof.
  intros H. unfold range.
  replace (Z.to_nat (b - a)) with (S (Z.to_nat (b - (a + 1)))) by lia.
  cbn [seq map]. f_equal; [lia|].
  rewrite <- seq_shift, map_map. apply map_ext. intros k. lia.
Qed.

Lemma range_snoc a b : (a <= b)%Z -> range a (b + 1) = range a b ++ [b].
Proof.
  intros H. unfold range.
  replace (Z.to_nat (b + 1 - a)) with (Z.to_nat (b - a) + 1)%nat by lia.
  rewrite seq_app, map_app. cbn [seq map]. do 2 f_equal. lia.
Qed.

Lemma for_loop_app {S I} (body : S -> I -> result S) (xs ys : list I) (s : S) :
  for_loop body (xs ++ ys) s = (s' <- for_loop body xs s ;; for_loop body ys s').
Proof.
  revert s. induction xs as [|x xs IH]; intros s; cbn [for_loop app bind]; [reflexivity|].
  destruct (body s x) as [s1|e]; cbn [bind]; [apply IH|reflexivity].
Qed.

Example getitem_from_the_end : getitem [10; 20; 30]%Z (-1) = Ok 30%Z.
Proof. reflexivity. Qed.

Example getitem_out_of_range : getitem [10; 20; 30]%Z 3 = Raise IndexError.
Proof. reflexivity. Qed.

Example range_1_4 : range 1 4 = [1; 2; 3]%Z.
Proof. reflexivity. Qed.

Example enumerate_pairs :
  enumerate [true; false] = [(0%Z, true); (1%Z, false)].
Proof. reflexivity. Qed.

(** ** The nearest-vertex scan *)

Section Nearest.

Variables query_lat query_lon : R.
Local Abbreviation q := (query_lat, query_lon).

Lemma nearest_step_inv pre st x :
  nearest_inv q pre st ->
  exists st', nearest_step query_lat query_lon st (len pre, x) = Ok st' /\
              nearest_inv q (pre ++ [x]) st'.
Proof.
  intros Inv. destruct st as [m idx]. destruct x as [lat lon].
  unfold nearest_step. rewrite haversine_distance_ok. cbn [bind].
  assert (Hnew : nth_error (pre ++ [(lat, lon)]) (Z.to_nat (len pre)) = Some (lat, lon)).
  { unfold len. rewrite Nat2Z.id, nth_error_app2 by lia. now rewrite Nat.sub_diag. }
  assert (Hlast : forall j p', nth_error (pre ++ [(lat, lon)]) j = Some p' ->
                    (j < List.length pre)%nat /\ nth_error pre j = Some p' \/
                    j = List.length pre /\ p' = (lat, lon)).
  { intros j p' Hj. destruct (Nat.lt_ge_cases j (List.length pre)) as [L|G].
    - left. split; [assumption|]. now rewrite nth_error_app1 in Hj.
    - right. rewrite nth_error_app2 in Hj by assumption.
      destruct (j - List.length pre)%nat as [|k] eqn:E; cbn in Hj.
      + split; [lia|congruence].
      + destruct k; discriminate. }
  destruct Inv as [[-> E]|(p & Hm & Hidx & Hp & Hmin & Hfirst)].
  - injection E as -> ->. cbn [lt_e]. eexists; split; [reflexivity|]. right.
    exists (lat, lon). cbn [fst snd]. rewrite len_app.
    split; [reflexivity|]. split; [cbn; lia|]. split; [exact Hnew|]. split.
    + intros j p' Hj. destruct (Hlast j p' Hj) as [[L _]|[_ ->]]; [cbn in L; lia|lra].
    + intros j p' Hjlt. cbn in Hjlt. lia.
  - cbn [fst snd] in *. subst m. cbn [lt_e].
    pose proof (len_nonneg pre) as Hlen.
    destruct (Rlt_dec (haversine q (lat, lon)) (haversine q p)) as [Hlt|Hge].
    + eexists; split; [reflexivity|]. right. exists (lat, lon). cbn [fst snd].
      rewrite len_app.
      split; [reflexivity|]. split; [cbn; lia|]. split; [exact Hnew|]. split.
      * intros j p' Hj. destruct (Hlast j p' Hj) as [[_ H1]|[_ ->]]; [|lra].
        specialize (Hmin j p' H1). lra.
      * intros j p' Hjlt Hj. destruct (Hlast j p' Hj) as [[_ H1]|[E _]].
        -- specialize (Hmin j p' H1). lra.
        -- unfold len in Hjlt. lia.
    + eexists; split; [reflexivity|]. right. exists p. cbn [fst snd].
      rewrite len_app.
      split; [reflexivity|]. split; [cbn; lia|]. split; [|split].
      * rewrite nth_error_app1; [assumption|].
        apply nth_error_Some. congruence.
      * intros j p' Hj. destruct (Hlast j p' Hj) as [[_ H1]|[_ ->]]; [|lra].
        now apply (Hmin j).
      * intros j p' Hjlt Hj. destruct (Hlast j p' Hj) as [[_ H1]|[E _]].
        -- now apply (Hfirst j).
        -- unfold len in Hidx. lia.
Qed.

Lemma nearest_loop_inv l : forall pre st,
  nearest_inv q pre st ->
  exists st',
    for_loop (nearest_step query_lat query_lon)
             (combine (range (len pre) (len pre + len l)) l) st = Ok st' /\
    nearest_inv q (pre ++ l) st'.
Proof.
  induction l as [|x l IH]; intros pre st Inv.
  - rewrite app_nil_r. exists st. split; [|assumption].
    rewrite range_nil by (unfold len; cbn [List.length]; lia). reflexivity.
  - assert (Hlt : (len pre < len pre + len (x :: l))%Z).
    { rewrite len_cons. pose proof (len_nonneg l). lia. }
    rewrite (range_cons _ _ Hlt).
    cbn [combine for_loop].
    destruct (nearest_step_inv pre st x Inv) as (st1 & E1 & Inv1).
    rewrite E1. cbn [bind].
    destruct (IH (pre ++ [x]) st1 Inv1) as (st' & E' & Inv').
    exists st'. rewrite <- app_assoc in Inv'. cbn [app] in Inv'.
    split; [|assumption].
    replace (len (pre ++ [x])) with (len pre + 1)%Z in E'
      by (rewrite len_app; reflexivity).
    replace (len pre + len (x :: l))%Z with (len pre + 1 + len l)%Z
      by (rewrite len_cons; lia).
    exact E'.
Qed.

Lemma nearest_loop_spec (route : list (R * R)) :
  route <> [] ->
  exists p idx,
    for_loop (nearest_step query_lat query_lon) (enumerate route) (PosInf, 0%Z)
      = Ok (Fin (haversine q p), idx) /\
    (0 <= idx < len route)%Z /\
    nth_error route (Z.to_nat idx) = Some p /\
    (forall j p', nth_error route j = Some p' -> haversine q p <= haversine q p') /\
    (forall j p', (j < Z.to_nat idx)%nat -> nth_error route j = Some p' ->
                  haversine q p < haversine q p').
Proof.
  intros Hne.
  destruct (nearest_loop_inv route [] (PosInf, 0%Z)) as (st' & E & Inv).
  { left. split; reflexivity. }
  cbn [app len List.length] in *. change (Z.of_nat 0) with 0%Z in E.
  rewrite Z.add_0_l in E.
  destruct Inv as [[-> _]|(p & Hm & Hidx & Hp & Hmin & Hfirst)]; [congruence|].
  destruct st' as [m idx]. cbn [fst snd] in *. subst m.
  exists p, idx. unfold enumerate. repeat split; try assumption; try lia.
Qed.

End Nearest.


(** ** Cumulative distances *)

Lemma cumulative_loop_inv (route : list (R * R)) (m : nat) :
  (m < List.length route)%nat ->
  exists c ds,
    for_loop (cumulative_step route) (range 1 (Z.of_nat (S m))) (0, [0]) = Ok (c, ds) /\
    nth_error ds m = Some c /\
    cumulative_upto route (S m) ds.
Proof.
  induction m as [|m IH]; intros Hm.
  - exists 0, [0]. split; [reflexivity|]. split; [reflexivity|].
    split; [reflexivity|]. split; [reflexivity|]. intros; lia.
  - destruct IH as (c & ds & E & Hc & Hlen & H0 & Hrec); [lia|].
    replace (Z.of_nat (S (S m))) with (Z.of_nat (S m) + 1)%Z by lia.
    rewrite range_snoc by lia. rewrite for_loop_app, E. cbn [bind for_loop].
    unfold cumulative_step.
    destruct (nth_error route m) as [[plat plon]|] eqn:Ep;
      [|apply nth_error_None in Ep; lia].
    destruct (nth_error route (S m)) as [[clat clon]|] eqn:Ec;
      [|apply nth_error_None in Ec; lia].
    replace (Z.of_nat (S m) - 1)%Z with (Z.of_nat m) by lia.
    rewrite (getitem_nth_error _ _ _ Ep), (getitem_nth_error _ _ _ Ec).
    cbn [bind]. rewrite haversine_distance_ok. cbn [bind].
    eexists _, _. split; [reflexivity|].
    split; [|split; [|split]].
    + rewrite nth_error_app2 by lia. rewrite Hlen, Nat.sub_diag. reflexivity.
    + rewrite length_app. cbn. lia.
    + rewrite nth_error_app1 by lia. assumption.
    + intros j p p' d Hp Hp' Hd Hj.
      destruct (Nat.eq_dec j m) as [->|Hne].
      * rewrite nth_error_app1 in Hd by lia.
        rewrite nth_error_app2 by lia. rewrite Hlen, Nat.sub_diag. cbn.
        congruence.
      * rewrite nth_error_app1 in Hd by lia.
        rewrite nth_error_app1 by lia.
        apply (Hrec j p p' d); try assumption; lia.
Qed.

Lemma cumulative_distances_spec (route : list (R * R)) :
  route <> [] ->
  exists c ds,
    cumulative_distances route = Ok (c, ds) /\
    cumulative_upto route (List.length route) ds.
Proof.
  intros Hne. destruct route as [|p0 rest]; [congruence|].
  destruct (cumulative_loop_inv (p0 :: rest) (List.length rest)) as (c & ds & E & _ & Hs).
  { cbn. lia. }
  exists c, ds. split; [|exact Hs].
  unfold cumulative_distances, len. exact E.
Qed.

Lemma cumulative_upto_monotone route m ds :
  cumulative_upto route m ds -> (m <= List.length route)%nat ->
  forall j i di dj, (i <= j)%nat ->
    nth_error ds i = Some di -> nth_error ds j = Some dj -> di <= dj.
Proof.
  intros (Hlen & H0 & Hrec) Hm. induction j as [|j IH]; intros i di dj Hij Hi Hj.
  - replace i with 0%nat in Hi by lia. rewrite Hi in Hj. injection Hj as <-. lra.
  - destruct (Nat.eq_dec i (S j)) as [->|Hne].
    + rewrite Hi in Hj. injection Hj as <-. lra.
    + assert (Hjlt : (S j < m)%nat).
      { rewrite <- Hlen. apply nth_error_Some. congruence. }
      destruct (nth_error ds j) as [d|] eqn:Ed; [|apply nth_error_None in Ed; lia].
      destruct (nth_error route j) as [p|] eqn:Ep; [|apply nth_error_None in Ep; lia].
      destruct (nth_error route (S j)) as [p'|] eqn:Ep'; [|apply nth_error_None in Ep'; lia].
      rewrite (Hrec j p p' d Ep Ep' Ed Hjlt) in Hj. injection Hj as <-.
      pose proof (haversine_nonneg p p').
      assert (di <= d) by (apply (IH i di d); [lia|assumption|reflexivity]).
      lra.
Qed.

(** ** The nearest-point search as a whole *)

Lemma find_nearest_point_on_route_spec (query_lat query_lon : R) (route : list (R * R)) :
  route <> [] ->
  exists p idx d0 c ds,
    find_nearest_point_on_route query_lat query_lon route =
      Ok (Some {| point := {| latitude := fst p; longitude := snd p;
                              distance_from_start := d0 |};
                  distance_to_point := Fin (haversine (query_lat, query_lon) p);
                  route_index := idx |}) /\
    (0 <= idx < len route)%Z /\
    nth_error route (Z.to_nat idx) = Some p /\
    (forall j p', nth_error route j = Some p' ->
                  haversine (query_lat, query_lon) p <= haversine (query_lat, query_lon) p') /\
    (forall j p', (j < Z.to_nat idx)%nat -> nth_error route j = Some p' ->
                  haversine (query_lat, query_lon) p < haversine (query_lat, query_lon) p') /\
    cumulative_distances route = Ok (c, ds) /\
    cumulative_upto route (List.length route) ds /\
    nth_error ds (Z.to_nat idx) = Some d0.
Proof.
  intros Hne.
  destruct (cumulative_distances_spec route Hne) as (c & ds & Ec & Hs).
  destruct (nearest_loop_spec query_lat query_lon route Hne)
    as (p & idx & En & Hidx & Hp & Hmin & Hfirst).
  assert (Hd0 : exists d0, nth_error ds (Z.to_nat idx) = Some d0).
  { destruct (nth_error ds (Z.to_nat idx)) as [d0|] eqn:E; [now exists d0|].
    apply nth_error_None in E. destruct Hs as [Hlen _]. unfold len in Hidx. lia. }
  destruct Hd0 as [d0 Hd0].
  exists p, idx, d0, c, ds.
  split; [|repeat (split; [assumption|]); assumption].
  unfold find_nearest_point_on_route.
  destruct route as [|p0 rest]; [congruence|].
  rewrite Ec. cbn [bind]. rewrite En. cbn [bind].
  rewrite (getitem_Z _ _ _ (proj1 Hidx) Hp). cbn [bind].
  destruct p as [lat lon].
  rewrite (getitem_Z _ _ _ (proj1 Hidx) Hd0). reflexivity.
Qed.


Lemma path_length_skipn_step (k : nat) p p' : forall route i,
  nth_error route i = Some p -> nth_error route (S i) = Some p' ->
  path_length (firstn (S (S k)) (skipn i route)) =
  haversine p p' + path_length (firstn (S k) (skipn (S i) route)).
Proof.
  induction route as [|x route IH]; intros i Hp Hp'.
  - destruct i; discriminate.
  - destruct i as [|i].
    + cbn in Hp. injection Hp as ->.
      destruct route as [|y route]; [discriminate|].
      cbn in Hp'. injection Hp' as ->. reflexivity.
    + change (skipn (S i) (x :: route)) with (skipn i route).
      change (skipn (S (S i)) (x :: route)) with (skipn (S i) route).
      apply IH; assumption.
Qed.

Lemma vertices_between_step route i j p p' :
  (i < j)%nat ->
  nth_error route i = Some p -> nth_error route (S i) = Some p' ->
  path_length (vertices_between route i j) =
  haversine p p' + path_length (vertices_between route (S i) j).
Proof.
  intros Hij Hp Hp'. unfold vertices_between.
  replace (j - i + 1)%nat with (S (S (j - S i))) by lia.
  replace (j - S i + 1)%nat with (S (j - S i)) by lia.
  now apply path_length_skipn_step.
Qed.

Lemma path_length_single route i :
  path_length (vertices_between route i i) = 0.
Proof.
  unfold vertices_between. rewrite Nat.sub_diag. cbn [Nat.add].
  destruct (skipn i route) as [|x [|y l]]; reflexivity.
Qed.

Lemma route_distance_loop route (n : nat) : forall (i : nat) acc,
  (i + n < List.length route)%nat ->
  for_loop (route_distance_step route) (range (Z.of_nat i) (Z.of_nat (i + n))) acc =
  Ok (acc + path_length (vertices_between route i (i + n))).
Proof.
  induction n as [|n IH]; intros i acc Hb.
  - rewrite Nat.add_0_r, range_nil by lia. rewrite path_length_single.
    cbn [for_loop]. f_equal. lra.
  - rewrite range_cons by lia. cbn [for_loop]. unfold route_distance_step at 1.
    destruct (nth_error route i) as [[lat1 lon1]|] eqn:Ep;
      [|apply nth_error_None in Ep; lia].
    destruct (nth_error route (S i)) as [[lat2 lon2]|] eqn:Ep';
      [|apply nth_error_None in Ep'; lia].
    rewrite (getitem_nth_error _ _ _ Ep). cbn [bind].
    replace (Z.of_nat i + 1)%Z with (Z.of_nat (S i)) by lia.
    rewrite (getitem_nth_error _ _ _ Ep'). cbn [bind].
    rewrite haversine_distance_ok. cbn [bind].
    replace (i + S n)%nat with (S i + n)%nat by lia.
    rewrite IH by lia. f_equal.
    rewrite (vertices_between_step route i (S i + n) _ _ ltac:(lia) Ep Ep'). lra.
Qed.

Lemma calculate_route_distance_spec route (start_index end_index : Z) :
  (0 <= start_index < len route)%Z -> (0 <= end_index < len route)%Z ->
  calculate_route_distance_between_points route start_index end_index =
  Ok (if (start_index >=? end_index)%Z then 0
      else path_length (vertices_between route (Z.to_nat start_index)
                                         (Z.to_nat end_index))).
Proof.
  intros Hs He. unfold calculate_route_distance_between_points.
  destruct (Z.geb_spec start_index end_index) as [G|L]; [reflexivity|].
  pose proof (route_distance_loop route (Z.to_nat (end_index - start_index))
                (Z.to_nat start_index) 0) as H.
  replace (Z.to_nat start_index + Z.to_nat (end_index - start_index))%nat
    with (Z.to_nat end_index) in H by lia.
  rewrite !Z2Nat.id in H by lia. rewrite H by (unfold len in *; lia).
  f_equal. lra.
Qed.

Lemma calculate_eta_minutes_total d s :
  exists v, calculate_eta_minutes d s = Ok v.
Proof.
  unfold calculate_eta_minutes, truediv.
  destruct (Rle_dec s 0); [now eexists|].
  destruct (Req_dec_T (s * 1000 / 60) 0); [lra|now eexists].
Qed.

(** ** One trip *)


Lemma gt_e_false m x : gt_e m x = false <-> le_e m x.
Proof.
  destruct m as [y|]; cbn.
  - destruct (Rgt_dec y x); split; intros; try discriminate; try reflexivity; lra.
  - split; [discriminate|tauto].
Qed.

Lemma str_falsy_spec s : str_falsy s = true <-> s = EmptyString.
Proof. destruct s; cbn; split; congruence. Qed.

Lemma list_falsy_spec {A} (l : list A) : list_falsy l = true <-> l = [].
Proof. destruct l; cbn; split; congruence. Qed.

Section Matching.

Variable polyline_decode : string -> result (list (R * R)).
Variable self : Self.
Variables rider_start_lat rider_start_lon rider_dest_lat rider_dest_lon : R.
Variable seats_required : Z.

Local Abbreviation evaluate trip :=
  (_evaluate_trip polyline_decode self trip rider_start_lat rider_start_lon
     rider_dest_lat rider_dest_lon seats_required).

Local Abbreviation conditions :=
  (match_conditions polyline_decode self rider_start_lat rider_start_lon
     rider_dest_lat rider_dest_lon seats_required).

Local Abbreviation matched := (matched_trip self).

Lemma find_nearest_some qlat qlon route :
  route <> [] ->
  exists res, find_nearest_point_on_route qlat qlon route = Ok (Some res) /\
              (0 <= route_index res < len route)%Z.
Proof.
  intros Hne.
  destruct (find_nearest_point_on_route_spec qlat qlon route Hne)
    as (p & idx & d0 & c & ds & E & Hidx & _).
  eexists. split; [exact E|exact Hidx].
Qed.

Lemma evaluate_trip_match trip route_points pickup_result dropoff_result :
  models.is_ride_requests_allowed trip = true ->
  (models.available_seats trip >= seats_required)%Z ->
  models.route_geometry trip <> EmptyString ->
  polyline_decode (models.route_geometry trip) = Ok route_points ->
  route_points <> [] ->
  find_nearest_point_on_route rider_start_lat rider_start_lon route_points
    = Ok (Some pickup_result) ->
  le_e (distance_to_point pickup_result) (radius_meters self) ->
  find_nearest_point_on_route rider_dest_lat rider_dest_lon route_points
    = Ok (Some dropoff_result) ->
  le_e (distance_to_point dropoff_result) (radius_meters self) ->
  (route_index dropoff_result > route_index pickup_result)%Z ->
  exists m, evaluate trip = Ok (Some m) /\
            matched trip route_points pickup_result dropoff_result m.
Proof.
  intros Hal Hseats Hgeo Hdec Hne Hp Hpr Hd Hdr Hidx.
  destruct (find_nearest_some rider_start_lat rider_start_lon route_points Hne)
    as (pr & Epr & Bp).
  destruct (find_nearest_some rider_dest_lat rider_dest_lon route_points Hne)
    as (dr & Edr & Bd).
  rewrite Hp in Epr. injection Epr as <-. rewrite Hd in Edr. injection Edr as <-.
  pose proof (calculate_route_distance_spec route_points _ _ Bp Bd) as Hdist.
  destruct (calculate_eta_minutes_total (distance_from_start (point pickup_result))
              (average_speed_kmh self)) as (eta & Heta).
  unfold _evaluate_trip.
  rewrite Hal. cbn [negb].
  destruct (Z.ltb_spec (models.available_seats trip) seats_required); [lia|].
  destruct (str_falsy (models.route_geometry trip)) eqn:Es;
    [apply str_falsy_spec in Es; congruence|].
  rewrite Hdec.
  destruct (list_falsy route_points) eqn:El;
    [apply list_falsy_spec in El; congruence|].
  rewrite Hp. cbn [bind].
  apply gt_e_false in Hpr. rewrite Hpr.
  rewrite Hd. cbn [bind].
  apply gt_e_false in Hdr. rewrite Hdr.
  destruct (Z.leb_spec (route_index dropoff_result) (route_index pickup_result)); [lia|].
  rewrite Hdist. cbn [bind]. rewrite Heta. cbn [bind].
  eexists. split; [reflexivity|].
  unfold matched_trip. cbn.
  repeat (split; [reflexivity|]).
  split; [exact Hdist|]. split; [reflexivity|].
  exists eta. split; [exact Heta|reflexivity].
Qed.

Lemma evaluate_trip_total trip : exists o, evaluate trip = Ok o.
Proof.
  unfold _evaluate_trip.
  destruct (negb (models.is_ride_requests_allowed trip)); [now eexists|].
  destruct (models.available_seats trip <? seats_required)%Z; [now eexists|].
  destruct (str_falsy (models.route_geometry trip)); [now eexists|].
  destruct (polyline_decode (models.route_geometry trip)) as [route|e]; [|now eexists].
  destruct (list_falsy route) eqn:El; [now eexists|].
  assert (Hne : route <> []) by (intros ->; discriminate).
  destruct (find_nearest_some rider_start_lat rider_start_lon route Hne)
    as (pr & Epr & Bp).
  destruct (find_nearest_some rider_dest_lat rider_dest_lon route Hne)
    as (dr & Edr & Bd).
  rewrite Epr. cbn [bind].
  destruct (gt_e (distance_to_point pr) (radius_meters self)); [now eexists|].
  rewrite Edr. cbn [bind].
  destruct (gt_e (distance_to_point dr) (radius_meters self)); [now eexists|].
  destruct (route_index dr <=? route_index pr)%Z; [now eexists|].
  rewrite (calculate_route_distance_spec route _ _ Bp Bd). cbn [bind].
  destruct (calculate_eta_minutes_total (distance_from_start (point pr))
              (average_speed_kmh self)) as (eta & Heta).
  rewrite Heta. cbn [bind]. now eexists.
Qed.

Lemma evaluate_trip_some_inv trip m :
  evaluate trip = Ok (Some m) ->
  models.is_ride_requests_allowed trip = true /\
  (models.available_seats trip >= seats_required)%Z /\
  models.route_geometry trip <> EmptyString /\
  exists route_points,
    polyline_decode (models.route_geometry trip) = Ok route_points /\
    route_points <> [] /\
    exists pickup_result dropoff_result,
      find_nearest_point_on_route rider_start_lat rider_start_lon route_points
        = Ok (Some pickup_result) /\
      le_e (distance_to_point pickup_result) (radius_meters self) /\
      find_nearest_point_on_route rider_dest_lat rider_dest_lon route_points
        = Ok (Some dropoff_result) /\
      le_e (distance_to_point dropoff_result) (radius_meters self) /\
      (route_index dropoff_result > route_index pickup_result)%Z /\
      matched trip route_points pickup_result dropoff_result m.
Proof.
  unfold _evaluate_trip. intros H.
  destruct (models.is_ride_requests_allowed trip) eqn:Hal; cbn [negb] in H;
    [|discriminate].
  destruct (Z.ltb_spec (models.available_seats trip) seats_required);
    [discriminate|].
  destruct (str_falsy (models.route_geometry trip)) eqn:Es; [discriminate|].
  destruct (polyline_decode (models.route_geometry trip)) as [route|e] eqn:Hdec;
    [|discriminate].
  destruct (list_falsy route) eqn:El; [discriminate|].
  destruct (find_nearest_point_on_route rider_start_lat rider_start_lon route)
    as [[pr|]|e] eqn:Epr; cbn [bind] in H; try discriminate.
  destruct (gt_e (distance_to_point pr) (radius_meters self)) eqn:Gp;
    [discriminate|].
  destruct (find_nearest_point_on_route rider_dest_lat rider_dest_lon route)
    as [[dr|]|e] eqn:Edr; cbn [bind] in H; try discriminate.
  destruct (gt_e (distance_to_point dr) (radius_meters self)) eqn:Gd;
    [discriminate|].
  destruct (Z.leb_spec (route_index dr) (route_index pr)); [discriminate|].
  destruct (calculate_route_distance_between_points route (route_index pr)
              (route_index dr)) as [dist|e] eqn:Hdist; cbn [bind] in H;
    [|discriminate].
  destruct (calculate_eta_minutes (distance_from_start (point pr))
              (average_speed_kmh self)) as [eta|e] eqn:Heta; cbn [bind] in H;
    [|discriminate].
  injection H as <-.
  split; [reflexivity|]. split; [lia|].
  split; [intros E; rewrite E in Es; discriminate|].
  exists route. split; [reflexivity|].
  split; [intros ->; discriminate|].
  exists pr, dr. split; [exact Epr|]. split; [now apply gt_e_false|].
  split; [exact Edr|]. split; [now apply gt_e_false|]. split; [lia|].
  unfold matched_trip. cbn.
  repeat (split; [reflexivity|]).
  split; [exact Hdist|]. split; [reflexivity|].
  exists eta. split; [exact Heta|reflexivity].
Qed.

Lemma evaluate_trip_iff trip :
  (exists m, evaluate trip = Ok (Some m)) <-> conditions trip.
Proof.
  split.
  - intros [m H]. apply evaluate_trip_some_inv in H.
    destruct H as (H1 & H2 & H3 & route & H4 & H5 & pr & dr & H6 & H7 & H8 & H9 & H10 & _).
    unfold match_conditions. eauto 15.
  - intros (H1 & H2 & H3 & route & H4 & H5 & pr & dr & H6 & H7 & H8 & H9 & H10).
    destruct (evaluate_trip_match trip route pr dr) as (m & E & _); try assumption.
    now exists m.
Qed.

Lemma evaluate_trip_none trip :
  ~ conditions trip -> evaluate trip = Ok None.
Proof.
  intros Hn. destruct (evaluate_trip_total trip) as [[m|] E]; [|exact E].
  exfalso. apply Hn. apply evaluate_trip_iff. now exists m.
Qed.

End Matching.

(** ** All trips *)


Lemma haversine_sym p q : haversine p q = haversine q p.
Proof.
  unfold haversine. cbv zeta.
  assert (E : hav_a (fst p) (snd p) (fst q) (snd q) = hav_a (fst q) (snd q) (fst p) (snd p)).
  { unfold hav_a, math.radians.
    replace ((fst p - fst q) * (PI / 180) / 2) with (- ((fst q - fst p) * (PI / 180) / 2)) by lra.
    replace ((snd p - snd q) * (PI / 180) / 2) with (- ((snd q - snd p) * (PI / 180) / 2)) by lra.
    rewrite !sin_neg. ring. }
  now rewrite E.
Qed.

Lemma filter_map_app {A B} (f : A -> option B) l l' :
  filter_map f (l ++ l') = filter_map f l ++ filter_map f l'.
Proof.
  induction l as [|x l IH]; [reflexivity|].
  cbn. destruct (f x); cbn; now rewrite IH.
Qed.

Section FindMatches.

Variable polyline_decode : string -> result (list (R * R)).
Variable self : Self.
Variables rider_start_lat rider_start_lon rider_dest_lat rider_dest_lon : R.
Variable seats_required : Z.

Local Abbreviation evaluate trip :=
  (_evaluate_trip polyline_decode self trip rider_start_lat rider_start_lon
     rider_dest_lat rider_dest_lon seats_required).

Lemma find_matches_loop (f : models.Trip -> option MatchedTrip) :
  (forall trip, evaluate trip = Ok (f trip)) ->
  forall trips acc,
    for_loop (find_matches_step polyline_decode self rider_start_lat
                rider_start_lon rider_dest_lat rider_dest_lon seats_required)
             trips acc
    = Ok (acc ++ filter_map f trips).
Proof.
  intros Hf. induction trips as [|t trips IH]; intros acc.
  - cbn. now rewrite app_nil_r.
  - cbn [for_loop]. unfold find_matches_step at 1.
    rewrite Hf. cbn [bind filter_map].
    destruct (f t) as [m|]; cbn [bind]; rewrite IH.
    + now rewrite <- app_assoc.
    + reflexivity.
Qed.

Local Abbreviation evaluated :=
  (evaluation polyline_decode self rider_start_lat rider_start_lon
     rider_dest_lat rider_dest_lon seats_required).

Lemma evaluation_spec trip : evaluate trip = Ok (evaluated trip).
Proof.
  unfold evaluation.
  destruct (evaluate_trip_total polyline_decode self rider_start_lat rider_start_lon
              rider_dest_lat rider_dest_lon seats_required trip) as [o E].
  now rewrite E.
Qed.

Lemma find_matches_filter_map trips :
  find_matches polyline_decode self trips rider_start_lat rider_start_lon
    rider_dest_lat rider_dest_lon seats_required
  = Ok (filter_map evaluated trips).
Proof.
  unfold find_matches. now rewrite (find_matches_loop evaluated evaluation_spec).
Qed.

End FindMatches.

(** ** The loop of [find_matches], whatever the evaluation does *)

Section FindMatchesLoop.

Variable polyline_decode : string -> result (list (R * R)).
Variable self : Self.
Variables rider_start_lat rider_start_lon rider_dest_lat rider_dest_lon : R.
Variable seats_required : Z.

Local Abbreviation evaluate trip :=
  (_evaluate_trip polyline_decode self trip rider_start_lat rider_start_lon
     rider_dest_lat rider_dest_lon seats_required).

Local Abbreviation step :=
  (find_matches_step polyline_decode self rider_start_lat rider_start_lon
     rider_dest_lat rider_dest_lon seats_required).

Local Abbreviation evaluated :=
  (evaluation polyline_decode self rider_start_lat rider_start_lon
     rider_dest_lat rider_dest_lon seats_required).

Lemma find_matches_loop_map_result trips : forall acc,
  for_loop step trips acc
  = (results <- map_result (fun trip => evaluate trip) trips ;;
     Ok (acc ++ somes results)).
Proof.
  induction trips as [|t trips IH]; intros acc.
  - cbn. now rewrite app_nil_r.
  - cbn [for_loop map_result]. unfold find_matches_step at 1.
    destruct (evaluate t) as [[m|]|e]; cbn [bind]; [| |reflexivity];
      rewrite IH; destruct (map_result _ trips) as [rs|e']; cbn [bind];
      try reflexivity; unfold somes; cbn [filter_map].
    now rewrite <- app_assoc.
Qed.

Lemma find_matches_returned trips : forall acc matches,
  for_loop step trips acc = Ok matches ->
  (forall trip, In trip trips -> evaluate trip = Ok (evaluated trip)) /\
  matches = acc ++ filter_map evaluated trips.
Proof.
  induction trips as [|t trips IH]; intros acc matches H.
  - cbn in H. injection H as <-. split; [intros ? []|]. cbn. now rewrite app_nil_r.
  - cbn [for_loop] in H. unfold find_matches_step at 1 in H.
    destruct (evaluate t) as [o|e] eqn:E; cbn [bind] in H; [|discriminate].
    assert (Et : evaluate t = Ok (evaluated t)) by (unfold evaluation; now rewrite E).
    assert (Eo : evaluated t = o) by (unfold evaluation; now rewrite E).
    destruct o as [m|].
    + apply IH in H. destruct H as (Hall & ->). split.
      * intros trip [<-|Hin]; [exact Et|now apply Hall].
      * cbn [filter_map]. rewrite Eo. now rewrite <- app_assoc.
    + apply IH in H. destruct H as (Hall & ->). split.
      * intros trip [<-|Hin]; [exact Et|now apply Hall].
      * cbn [filter_map]. now rewrite Eo.
Qed.

End FindMatchesLoop.

(** ** A two-vertex route along the equator *)

Lemma nearest_on_equator_west :
  exists res, find_nearest_point_on_route 0 0 equator_route = Ok (Some res) /\
              route_index res = 0%Z /\ distance_to_point res = Fin 0.
Proof.
  destruct (find_nearest_point_on_route_spec 0 0 equator_route)
    as (p & idx & d0 & c & ds & E & Hidx & Hp & Hmin & Hfirst & _);
    [discriminate|].
  pose proof (Hmin 0%nat (0, 0) eq_refl) as H0.
  rewrite haversine_same_point in H0.
  pose proof (haversine_nonneg (0, 0) p) as Hn.
  assert (Hz : haversine (0, 0) p = 0) by lra.
  eexists. split; [exact E|]. cbn [route_index distance_to_point].
  split; [|now rewrite Hz].
  destruct (Z.eq_dec idx 0) as [->|Hne]; [reflexivity|].
  exfalso. specialize (Hfirst 0%nat (0, 0)).
  rewrite haversine_same_point in Hfirst.
  assert (haversine (0, 0) p < 0); [|lra].
  apply Hfirst; [lia|reflexivity].
Qed.

Lemma nearest_on_equator_east :
  exists res, find_nearest_point_on_route 0 1 equator_route = Ok (Some res) /\
              route_index res = 1%Z /\ distance_to_point res = Fin 0.
Proof.
  destruct (find_nearest_point_on_route_spec 0 1 equator_route)
    as (p & idx & d0 & c & ds & E & Hidx & Hp & Hmin & Hfirst & _);
    [discriminate|].
  pose proof (Hmin 1%nat (0, 1) eq_refl) as H0.
  rewrite haversine_same_point in H0.
  pose proof (haversine_nonneg (0, 1) p) as Hn.
  assert (Hz : haversine (0, 1) p = 0) by lra.
  eexists. split; [exact E|]. cbn [route_index distance_to_point].
  split; [|now rewrite Hz].
  unfold equator_route, len in Hidx. cbn in Hidx.
  destruct (Z.eq_dec idx 1) as [->|Hne]; [reflexivity|].
  assert (idx = 0%Z) by lia. subst idx. cbn in Hp. injection Hp as <-.
  rewrite haversine_sym in Hz. pose proof haversine_equator_pos. lra.
Qed.

(** ** The gateway's dispatch *)

Section Dispatch.

Import TripLocationConsumer.

Variable str : json -> string.
Variable trip_exists : json -> result bool.
Variable send_and_wait : string -> json -> result unit.

Lemma handlers_get_unknown (message_type : json) :
  hashable message_type = true -> ~ known_type message_type ->
  handlers_get str trip_exists send_and_wait message_type = Ok None.
Proof.
  intros Hh Hk. unfold handlers_get. rewrite Hh. f_equal.
  destruct message_type as [| | | |s| |]; try reflexivity.
  unfold handlers. cbn [lookup].
  destruct (String.eqb_spec "PUBLISH_LOCATION" s) as [ <- | _ ];
    [exfalso; apply Hk; left; reflexivity|].
  destruct (String.eqb_spec "SUBSCRIBE_TO_TRIP_LOCATION" s) as [ <- | _ ];
    [exfalso; apply Hk; right; left; reflexivity|].
  destruct (String.eqb_spec "UNSUBSCRIBE_FROM_TRIP_LOCATION" s) as [ <- | _ ];
    [exfalso; apply Hk; right; right; reflexivity|].
  reflexivity.
Qed.

Lemma known_type_hashable (message_type : json) :
  known_type message_type -> hashable message_type = true.
Proof. intros [ -> | [ -> | -> ] ]; reflexivity. Qed.

(** An unknown type tag that can be hashed: one ERROR reply naming it,
    nothing else sent, added, discarded or published, [self] as it was,
    and no exception. *)
Lemma receive_json_unknown_type (items : list (string * json))
  (message_type : json) (w : world) :
  get (JDict items) "type" JNull = Ok message_type ->
  hashable message_type = true -> ~ known_type message_type ->
  receive_json str trip_exists send_and_wait (JDict items) w =
  (Ok tt,
   {| self := self w;
      trace := trace w ++
        [SendJson (error_message
                     ("Unknown message type: " ++ str message_type))] |}).
Proof.
  intros Hget Hh Hk. unfold receive_json, bindM, lift.
  rewrite Hget. cbn [get].
  rewrite (handlers_get_unknown _ Hh Hk). reflexivity.
Qed.

(** A message of a type nobody handles, and one with no type at all. *)
Example receive_json_ping (w : world) :
  receive_json str trip_exists send_and_wait
    (JDict [("type"%string, JStr "PING"); ("data"%string, JDict [])]) w =
  (Ok tt,
   {| self := self w;
      trace := trace w ++
        [SendJson (error_message
                     ("Unknown message type: " ++ str (JStr "PING")))] |}).
Proof. reflexivity. Qed.

Example receive_json_untyped (w : world) :
  receive_json str trip_exists send_and_wait (JDict []) w =
  (Ok tt,
   {| self := self w;
      trace := trace w ++
        [SendJson (error_message
                     ("Unknown message type: " ++ str JNull))] |}).
Proof. reflexivity. Qed.

(** A subscription to a trip that exists, with a group name the channel
    layer accepts. *)
Example receive_json_subscribe (w : world) :
  trip_exists (JInt 7) = Ok true ->
  valid_group_name ("trip_location_" ++ str (JInt 7)) = true ->
  subscribed_trips (self w) = [] ->
  receive_json str trip_exists send_and_wait
    (JDict [("type"%string, JStr "SUBSCRIBE_TO_TRIP_LOCATION");
            ("data"%string, JDict [("trip_id"%string, JInt 7)])]) w =
  (Ok tt,
   {| self := {| channel_name := channel_name (self w);
                 subscribed_trips := [JInt 7];
                 kafka_producer := kafka_producer (self w) |};
      trace := trace w ++
        [GroupAdd ("trip_location_" ++ str (JInt 7)) (channel_name (self w));
         SendJson (status_message "SUBSCRIBED" (JInt 7))] |}).
Proof.
  intros He Hv Hs. unfold receive_json, bindM, lift. cbn.
  unfold _handle_subscribe, bindM, lift. cbn. rewrite He. cbn.
  unfold group_add, _get_group_name. cbn in Hv |- *. rewrite Hv.
  rewrite Hs. cbn. unfold send_json, emit. cbn.
  rewrite <- app_assoc. reflexivity.
Qed.

End Dispatch.

(* ================================================================== *)
(** * The nearest-point search and the distances                       *)
(* ================================================================== *)

(** C3: [find_nearest_point_on_route] returns [None] for an empty route.
    For a route with at least one vertex it never returns [None]: what
    it returns is a result whose [distance_to_point] is a haversine
    distance from the query point that no vertex of the route undercuts,
    whose [route_index] is the first index at which that distance is
    reached (every earlier vertex is strictly farther), and whose [point]
    has the coordinates of the vertex at that index.  It returns whenever
    [haversine_distance] returns for the segments of the route and for
    the query point against every vertex; nothing in it catches the
    [ValueError] that [haversine_distance] raises in double precision
    for a query point almost antipodal to a vertex, such as the query
    (-6.40763, -176.58344) against the vertex (6.40763, 3.41656), where
    the claim has a result. *)
Theorem find_nearest_point_on_route_nearest (query_lat query_lon : R) :
  find_nearest_point_on_route query_lat query_lon [] = Ok None /\
  forall (p0 : R * R) (rest : list (R * R)),
    let route_points := p0 :: rest in
    (forall r,
       find_nearest_point_on_route query_lat query_lon route_points = Ok r ->
       exists res d,
         r = Some res /\
         distance_to_point res = Fin d /\
         (0 <= route_index res < len route_points)%Z /\
         nth_error route_points (Z.to_nat (route_index res))
           = Some (latitude (point res), longitude (point res)) /\
         haversine_distance query_lat query_lon
           (latitude (point res)) (longitude (point res)) = Ok d /\
         (forall j lat lon,
            nth_error route_points j = Some (lat, lon) ->
            exists d', haversine_distance query_lat query_lon lat lon = Ok d' /\
                       d <= d') /\
         (forall j lat lon,
            (j < Z.to_nat (route_index res))%nat ->
            nth_error route_points j = Some (lat, lon) ->
            exists d', haversine_distance query_lat query_lon lat lon = Ok d' /\
                       d < d')) /\
    ((forall j lat lon,
        nth_error route_points j = Some (lat, lon) ->
        exists d, haversine_distance query_lat query_lon lat lon = Ok d) ->
     (forall j lat1 lon1 lat2 lon2,
        nth_error route_points j = Some (lat1, lon1) ->
        nth_error route_points (S j) = Some (lat2, lon2) ->
        exists d, haversine_distance lat1 lon1 lat2 lon2 = Ok d) ->
     exists res,
       find_nearest_point_on_route query_lat query_lon route_points
         = Ok (Some res)).
Proof.
  split; [reflexivity|]. intros p0 rest route_points.
  destruct (find_nearest_point_on_route_spec query_lat query_lon route_points)
    as (p & idx & d0 & c & ds & E & Hidx & Hp & Hmin & Hfirst & _);
    [discriminate|].
  split; [|intros _ _; eexists; exact E].
  intros r Hr. rewrite E in Hr. injection Hr as <-.
  eexists _, (haversine (query_lat, query_lon) p).
  split; [reflexivity|]. cbn [distance_to_point route_index point latitude longitude].
  split; [reflexivity|]. split; [exact Hidx|].
  split; [now rewrite Hp, <- surjective_pairing|].
  split; [now rewrite haversine_distance_ok, <- surjective_pairing|].
  split.
  - intros j lat lon Hj. eexists. split; [apply haversine_distance_ok|].
    now apply (Hmin j).
  - intros j lat lon Hlt Hj. eexists. split; [apply haversine_distance_ok|].
    now apply (Hfirst j).
Qed.

(** C4: for a route with at least one vertex the first loop of the
    nearest-point search returns a list [distances_from_start] with one
    entry per vertex; entry 0 is 0; entry [i+1] is entry [i] plus the
    haversine distance of the segment from vertex [i] to vertex [i+1],
    which is never negative; so the list is non-decreasing.  The
    [distance_from_start] of every nearest-point result the search
    returns is the entry at its [route_index]. *)
Theorem cumulative_distances_nondecreasing (p0 : R * R) (rest : list (R * R)) :
  let route_points := p0 :: rest in
  exists cumulative_distance distances_from_start,
    cumulative_distances route_points
      = Ok (cumulative_distance, distances_from_start) /\
    List.length distances_from_start = List.length route_points /\
    nth_error distances_from_start 0 = Some 0 /\
    (forall i lat1 lon1 lat2 lon2 d,
       nth_error route_points i = Some (lat1, lon1) ->
       nth_error route_points (S i) = Some (lat2, lon2) ->
       nth_error distances_from_start i = Some d ->
       exists segment_distance,
         haversine_distance lat1 lon1 lat2 lon2 = Ok segment_distance /\
         0 <= segment_distance /\
         nth_error distances_from_start (S i) = Some (d + segment_distance)) /\
    (forall i j di dj,
       (i <= j)%nat ->
       nth_error distances_from_start i = Some di ->
       nth_error distances_from_start j = Some dj ->
       di <= dj) /\
    (forall query_lat query_lon res,
       find_nearest_point_on_route query_lat query_lon route_points
         = Ok (Some res) ->
       nth_error distances_from_start (Z.to_nat (route_index res))
         = Some (distance_from_start (point res))).
Proof.
  intros route_points.
  assert (Hne : route_points <> []) by discriminate.
  destruct (cumulative_distances_spec route_points Hne) as (c & ds & Ec & Hs).
  exists c, ds. split; [exact Ec|].
  pose proof Hs as (Hlen & H0 & Hrec).
  split; [exact Hlen|]. split; [exact H0|]. split; [|split].
  - intros i lat1 lon1 lat2 lon2 d Hp Hp' Hd.
    exists (haversine (lat1, lon1) (lat2, lon2)).
    split; [apply haversine_distance_ok|]. split; [apply haversine_nonneg|].
    apply (Hrec i _ _ d Hp Hp' Hd).
    apply nth_error_Some. congruence.
  - intros i j di dj Hij Hi Hj.
    apply (cumulative_upto_monotone route_points _ ds Hs (Nat.le_refl _) j i);
      assumption.
  - intros query_lat query_lon res Hres.
    destruct (find_nearest_point_on_route_spec query_lat query_lon route_points Hne)
      as (p & idx & d0 & c' & ds' & E & _ & _ & _ & _ & Ec' & _ & Hd0).
    rewrite Ec in Ec'. injection Ec' as <- <-.
    rewrite E in Hres. injection Hres as <-. exact Hd0.
Qed.

(** C5: for indices within the bounds of the route,
    [calculate_route_distance_between_points] returns 0 when
    [start_index >= end_index], equal indices included, and otherwise
    the sum of the haversine distances of the consecutive segments from
    vertex [start_index] to vertex [end_index]. *)
Theorem route_distance_between_points
  (route_points : list (R * R)) (start_index end_index : Z) :
  (0 <= start_index < len route_points)%Z ->
  (0 <= end_index < len route_points)%Z ->
  ((start_index >= end_index)%Z ->
   calculate_route_distance_between_points route_points start_index end_index
     = Ok 0) /\
  ((start_index < end_index)%Z ->
   calculate_route_distance_between_points route_points start_index end_index
     = Ok (path_length (vertices_between route_points (Z.to_nat start_index)
                                         (Z.to_nat end_index)))).
Proof.
  intros Hs He.
  rewrite (calculate_route_distance_spec route_points _ _ Hs He).
  destruct (Z.geb_spec start_index end_index); split; intros; try reflexivity; lia.
Qed.

Lemma route_distance_between_points_witness :
  (0 <= 0 < len equator_route)%Z /\
  (0 <= 1 < len equator_route)%Z /\
  calculate_route_distance_between_points equator_route 1 1 = Ok 0 /\
  calculate_route_distance_between_points equator_route 1 0 = Ok 0 /\
  calculate_route_distance_between_points equator_route 0 1
    = Ok (haversine (0, 0) (0, 1) + 0).
Proof.
  assert (B0 : (0 <= 0 < len equator_route)%Z)
    by (unfold equator_route, len; cbn [List.length]; lia).
  assert (B1 : (0 <= 1 < len equator_route)%Z)
    by (unfold equator_route, len; cbn [List.length]; lia).
  split; [exact B0|]. split; [exact B1|]. split; [|split].
  - apply (proj1 (route_distance_between_points equator_route 1 1 B1 B1)). lia.
  - apply (proj1 (route_distance_between_points equator_route 1 0 B1 B0)). lia.
  - apply (proj2 (route_distance_between_points equator_route 0 1 B0 B1)). lia.
Defined.

(** C6: [calculate_eta_minutes] always returns a number: 0 whenever
    [speed_kmh <= 0], so that the division is reached only with a
    divisor that is not 0, and [distance_meters / (speed_kmh * 1000 / 60)]
    whenever [speed_kmh > 0]; 30 km at 30 km/h take 60 minutes. *)
Theorem calculate_eta_minutes_never_raises :
  (forall distance_meters speed_kmh,
     exists minutes, calculate_eta_minutes distance_meters speed_kmh = Ok minutes) /\
  (forall distance_meters speed_kmh,
     speed_kmh <= 0 -> calculate_eta_minutes distance_meters speed_kmh = Ok 0) /\
  (forall distance_meters speed_kmh,
     speed_kmh > 0 ->
     speed_kmh * 1000 / 60 <> 0 /\
     calculate_eta_minutes distance_meters speed_kmh
       = Ok (distance_meters / (speed_kmh * 1000 / 60))) /\
  calculate_eta_minutes 30000 30 = Ok 60.
Proof.
  assert (Hpos : forall d s, s > 0 ->
            s * 1000 / 60 <> 0 /\
            calculate_eta_minutes d s = Ok (d / (s * 1000 / 60))).
  { intros d s Hs. split; [lra|]. unfold calculate_eta_minutes, truediv.
    destruct (Rle_dec s 0); [lra|].
    destruct (Req_dec_T (s * 1000 / 60) 0); [lra|reflexivity]. }
  split; [exact calculate_eta_minutes_total|]. split; [|split].
  - intros d s Hs. unfold calculate_eta_minutes.
    destruct (Rle_dec s 0); [reflexivity|lra].
  - exact Hpos.
  - destruct (Hpos 30000 30) as [_ E]; [lra|]. rewrite E. f_equal. lra.
Qed.

(* ================================================================== *)
(** * Matching                                                         *)
(* ================================================================== *)

Section MatchingClaims.

Variable polyline_decode : string -> result (list (R * R)).
Variable self : Self.
Variables rider_start_lat rider_start_lon rider_dest_lat rider_dest_lon : R.
Variable seats_required : Z.

Local Abbreviation evaluate trip :=
  (_evaluate_trip polyline_decode self trip rider_start_lat rider_start_lon
     rider_dest_lat rider_dest_lon seats_required).

Local Abbreviation conditions :=
  (match_conditions polyline_decode self rider_start_lat rider_start_lon
     rider_dest_lat rider_dest_lon seats_required).

Local Abbreviation find_all trips :=
  (find_matches polyline_decode self trips rider_start_lat rider_start_lon
     rider_dest_lat rider_dest_lon seats_required).


(** C2: when the nearest route points to the pickup and to the dropoff
    are both within [radius_meters], the trip is still no match whenever
    the dropoff's route index is less than or equal to the pickup's;
    equal indices are no match. *)
Theorem dropoff_not_after_pickup_no_match (trip : models.Trip)
  (route_points : list (R * R)) (pickup_result dropoff_result : NearestPointResult) :
  polyline_decode (models.route_geometry trip) = Ok route_points ->
  find_nearest_point_on_route rider_start_lat rider_start_lon route_points
    = Ok (Some pickup_result) ->
  find_nearest_point_on_route rider_dest_lat rider_dest_lon route_points
    = Ok (Some dropoff_result) ->
  le_e (distance_to_point pickup_result) (radius_meters self) ->
  le_e (distance_to_point dropoff_result) (radius_meters self) ->
  (route_index dropoff_result <= route_index pickup_result)%Z ->
  evaluate trip = Ok None.
Proof.
  intros Hdec Hp Hd _ _ Hidx. apply evaluate_trip_none.
  intros (_ & _ & _ & route & Hdec' & _ & pr & dr & Hp' & _ & Hd' & _ & Hgt).
  rewrite Hdec in Hdec'. injection Hdec' as <-.
  rewrite Hp in Hp'. injection Hp' as <-.
  rewrite Hd in Hd'. injection Hd' as <-. lia.
Qed.

(** C7: a trip whose [route_geometry] is empty or does not decode is
    "no match": [_evaluate_trip] returns [None] and raises nothing, and
    the trip leaves no trace in [find_matches]: over a sequence that
    contains the trip, [find_matches] does what it does over the
    sequence without it. *)
Theorem undecodable_geometry_is_no_match (trip : models.Trip) :
  models.route_geometry trip = EmptyString \/
  (exists e, polyline_decode (models.route_geometry trip) = Raise e) ->
  evaluate trip = Ok None /\
  forall before after,
    find_all (before ++ trip :: after) = find_all (before ++ after).
Proof.
  intros H.
  assert (E : evaluate trip = Ok None).
  { unfold _evaluate_trip.
    destruct (negb (models.is_ride_requests_allowed trip)); [reflexivity|].
    destruct (models.available_seats trip <? seats_required)%Z; [reflexivity|].
    destruct H as [H|[e H]].
    - rewrite H. reflexivity.
    - destruct (str_falsy (models.route_geometry trip)); [reflexivity|].
      now rewrite H. }
  split; [exact E|]. intros before after.
  unfold find_matches. rewrite !for_loop_app.
  destruct (for_loop _ before []) as [ms|e]; [|reflexivity].
  cbn [bind for_loop]. unfold find_matches_step at 1.
  rewrite E. reflexivity.
Qed.

(** C8: [find_matches] is the filter-map of the per-trip evaluation over
    its input: it evaluates the trips in the order of the input, up to
    the first exception, and returns the [MatchedTrip] of every trip
    that has one, once each, in that order, and nothing else. *)
Theorem find_matches_is_filter_map :
  (forall trips,
     find_all trips
     = (results <- map_result (fun trip => evaluate trip) trips ;;
        Ok (somes results))) /\
  (forall trips matches,
     find_all trips = Ok matches ->
     exists per_trip : models.Trip -> option MatchedTrip,
       (forall trip, In trip trips -> evaluate trip = Ok (per_trip trip)) /\
       matches = filter_map per_trip trips) /\
  (forall trips trips',
     find_all (trips ++ trips')
     = (ms <- find_all trips ;; ms' <- find_all trips' ;; Ok (ms ++ ms'))).
Proof.
  split; [|split].
  - intros trips. unfold find_matches.
    rewrite find_matches_loop_map_result.
    now destruct (map_result _ trips).
  - intros trips matches H.
    pose proof (find_matches_returned polyline_decode self rider_start_lat
                  rider_start_lon rider_dest_lat rider_dest_lon seats_required
                  trips [] matches H) as (Hall & ->).
    eexists. split; [exact Hall|reflexivity].
  - intros trips trips'. unfold find_matches.
    rewrite for_loop_app, !find_matches_loop_map_result.
    destruct (map_result _ trips) as [rs|e]; [|reflexivity].
    cbn [bind app]. rewrite find_matches_loop_map_result.
    now destruct (map_result _ trips').
Qed.

(** C10: in a [MatchedTrip] that [_evaluate_trip] emits, the pickup and
    dropoff coordinates are those of the route vertices at the route
    indices of the two nearest-point results, and the pickup and dropoff
    distances are the haversine distances from the rider's pickup and
    dropoff to those vertices. *)
Theorem matched_trip_reports_route_vertices (trip : models.Trip) (m : MatchedTrip) :
  evaluate trip = Ok (Some m) ->
  exists route_points pickup_result dropoff_result d_pickup d_dropoff,
    polyline_decode (models.route_geometry trip) = Ok route_points /\
    find_nearest_point_on_route rider_start_lat rider_start_lon route_points
      = Ok (Some pickup_result) /\
    find_nearest_point_on_route rider_dest_lat rider_dest_lon route_points
      = Ok (Some dropoff_result) /\
    nth_error route_points (Z.to_nat (route_index pickup_result))
      = Some (pickup_latitude m, pickup_longitude m) /\
    nth_error route_points (Z.to_nat (route_index dropoff_result))
      = Some (dropoff_latitude m, dropoff_longitude m) /\
    pickup_distance_meters m = Fin d_pickup /\
    haversine_distance rider_start_lat rider_start_lon
      (pickup_latitude m) (pickup_longitude m) = Ok d_pickup /\
    dropoff_distance_meters m = Fin d_dropoff /\
    haversine_distance rider_dest_lat rider_dest_lon
      (dropoff_latitude m) (dropoff_longitude m) = Ok d_dropoff.
Proof.
  intros H. apply evaluate_trip_some_inv in H.
  destruct H as (_ & _ & _ & route & Hdec & Hne & pr & dr & Hp & _ & Hd & _ & _ & Hm).
  destruct Hm as (_ & Plat & Plon & Dlat & Dlon & Pd & Dd & _).
  destruct (find_nearest_point_on_route_spec rider_start_lat rider_start_lon route Hne)
    as (pp & pidx & pd0 & pc & pds & Ep & _ & Hpp & _).
  destruct (find_nearest_point_on_route_spec rider_dest_lat rider_dest_lon route Hne)
    as (dp & didx & dd0 & dc & dds & Ed & _ & Hdp & _).
  rewrite Hp in Ep. injection Ep as ->. rewrite Hd in Ed. injection Ed as ->.
  cbn [point latitude longitude distance_to_point route_index] in *.
  exists route, {| point := {| latitude := fst pp; longitude := snd pp;
                               distance_from_start := pd0 |};
                    distance_to_point := Fin (haversine (rider_start_lat, rider_start_lon) pp);
                    route_index := pidx |},
         {| point := {| latitude := fst dp; longitude := snd dp;
                        distance_from_start := dd0 |};
            distance_to_point := Fin (haversine (rider_dest_lat, rider_dest_lon) dp);
            route_index := didx |},
         (haversine (rider_start_lat, rider_start_lon) pp),
         (haversine (rider_dest_lat, rider_dest_lon) dp).
  cbn [point latitude longitude distance_to_point route_index].
  rewrite Plat, Plon, Dlat, Dlon, Pd, Dd, !haversine_distance_ok, <- !surjective_pairing.
  repeat split; assumption.
Qed.

End MatchingClaims.

(** A rider who travels the equator route from its second vertex back to
    its first: both ends are on the route, in the wrong order. *)
Lemma dropoff_not_after_pickup_no_match_witness :
  exists pickup_result dropoff_result,
    decode_equator (models.route_geometry sample_trip) = Ok equator_route /\
    find_nearest_point_on_route 0 1 equator_route = Ok (Some pickup_result) /\
    find_nearest_point_on_route 0 0 equator_route = Ok (Some dropoff_result) /\
    le_e (distance_to_point pickup_result) (radius_meters sample_service) /\
    le_e (distance_to_point dropoff_result) (radius_meters sample_service) /\
    (route_index dropoff_result <= route_index pickup_result)%Z /\
    _evaluate_trip decode_equator sample_service sample_trip 0 1 0 0 1 = Ok None.
Proof.
  destruct nearest_on_equator_east as (pr & Ep & Ip & Dp).
  destruct nearest_on_equator_west as (dr & Ed & Id & Dd).
  assert (Hp : le_e (distance_to_point pr) (radius_meters sample_service))
    by (rewrite Dp; simpl; lra).
  assert (Hd : le_e (distance_to_point dr) (radius_meters sample_service))
    by (rewrite Dd; simpl; lra).
  assert (Hidx : (route_index dr <= route_index pr)%Z) by lia.
  exists pr, dr.
  split; [reflexivity|]. split; [exact Ep|]. split; [exact Ed|].
  split; [exact Hp|]. split; [exact Hd|]. split; [exact Hidx|].
  exact (dropoff_not_after_pickup_no_match decode_equator sample_service
           0 1 0 0 1 sample_trip equator_route pr dr eq_refl Ep Ed Hp Hd Hidx).
Defined.

Lemma undecodable_geometry_is_no_match_witness :
  (exists e, decode_fails (models.route_geometry sample_trip) = Raise e) /\
  _evaluate_trip decode_fails sample_service sample_trip 0 0 0 1 1 = Ok None /\
  find_matches decode_fails sample_service [sample_trip; sample_trip] 0 0 0 1 1
    = Ok [].
Proof.
  assert (H : exists e, decode_fails (models.route_geometry sample_trip) = Raise e)
    by (eexists; reflexivity).
  destruct (undecodable_geometry_is_no_match decode_fails sample_service
              0 0 0 1 1 sample_trip (or_intror H)) as [E Hall].
  split; [exact H|]. split; [exact E|].
  exact (eq_trans (Hall [sample_trip] []) (Hall [] [])).
Defined.

(** A rider who travels the equator route from its first vertex to its
    second is matched. *)
Lemma matched_trip_reports_route_vertices_witness :
  exists m,
    _evaluate_trip decode_equator sample_service sample_trip 0 0 0 1 1
      = Ok (Some m) /\
    exists d_pickup d_dropoff,
      pickup_distance_meters m = Fin d_pickup /\
      haversine_distance 0 0 (pickup_latitude m) (pickup_longitude m)
        = Ok d_pickup /\
      dropoff_distance_meters m = Fin d_dropoff /\
      haversine_distance 0 1 (dropoff_latitude m) (dropoff_longitude m)
        = Ok d_dropoff.
Proof.
  destruct nearest_on_equator_west as (pr & Ep & Ip & Dp).
  destruct nearest_on_equator_east as (dr & Ed & Id & Dd).
  destruct (evaluate_trip_match decode_equator sample_service 0 0 0 1 1
              sample_trip equator_route pr dr) as (m & E & _);
    try reflexivity; try assumption;
    try (rewrite ?Dp, ?Dd; simpl; lra); try (simpl; lia); try discriminate;
    try lia.
  exists m. split; [exact E|].
  destruct (matched_trip_reports_route_vertices decode_equator sample_service
              0 0 0 1 1 sample_trip m E)
    as (route & pr' & dr' & dp & dd & _ & _ & _ & _ & _ & H1 & H2 & H3 & H4).
  exists dp, dd. repeat split; assumption.
Defined.

(* ================================================================== *)
(** * The connection gateway                                           *)
(* ================================================================== *)

Section GatewayClaims.

Import TripLocationConsumer.

Variable str : json -> string.
Variable trip_exists : json -> result bool.
Variable send_and_wait : string -> json -> result unit.

(** C9: the claim is that every inbound message whose type tag is none
    of the three known ones is answered with an ERROR message that names
    the tag, with no other change and the connection left open.  This is
    what the code does at the message [{"type": [], "data": {}}], whose
    tag is none of the three: looking the tag up in the dispatch table
    raises [TypeError], so [receive_json] sends nothing and the exception
    leaves the consumer.  ([receive_json_unknown_type] is the claim for
    the tags that can be hashed.) *)
Theorem receive_json_list_type_raises (w : world) :
  get list_typed_message "type" JNull = Ok (JList []) /\
  ~ known_type (JList []) /\
  receive_json str trip_exists send_and_wait list_typed_message w
    = (Raise TypeError, w).
Proof.
  split; [reflexivity|]. split; [|reflexivity].
  intros [H|[H|H]]; discriminate.
Qed.

End GatewayClaims.

(* ================================================================== *)
(** * Further properties                                               *)
(* ================================================================== *)

(** ** The haversine formula *)

Lemma atan2_le_PI2 y x : 0 <= y -> 0 <= x -> math.atan2 y x <= PI / 2.
Proof.
  intros Hy Hx. unfold math.atan2. pose proof PI_RGT_0.
  destruct (Rlt_dec 0 x).
  - pose proof (atan_bound (y / x)). lra.
  - destruct (Rlt_dec x 0); [lra|].
    destruct (Rlt_dec 0 y); [lra|].
    destruct (Rlt_dec y 0); lra.
Qed.

Lemma haversine_le_half_circumference p q :
  haversine p q <= EARTH_RADIUS_METERS * PI.
Proof.
  unfold haversine. cbv zeta.
  pose proof (atan2_le_PI2 _ _ (sqrt_pos (hav_a (fst p) (snd p) (fst q) (snd q)))
                (sqrt_pos (1 - hav_a (fst p) (snd p) (fst q) (snd q)))) as H.
  unfold EARTH_RADIUS_METERS. nra.
Qed.

(** The angle of the point [(cos x, sin x)] of the first quadrant. *)
Lemma atan2_sin_cos x : 0 <= x <= PI / 2 -> math.atan2 (sin x) (cos x) = x.
Proof.
  intros [H0 H1]. unfold math.atan2. pose proof PI_RGT_0 as HPI.
  destruct H1 as [H1|H1].
  - assert (Hc : 0 < cos x) by (apply cos_gt_0; lra).
    destruct (Rlt_dec 0 (cos x)); [|lra].
    change (sin x / cos x) with (tan x). apply atan_tan. lra.
  - subst x. rewrite cos_PI2, sin_PI2.
    destruct (Rlt_dec 0 0); [lra|]. destruct (Rlt_dec 0 1); lra.
Qed.

(** When the haversine term is [sin x ^ 2] for a quarter turn at most,
    the distance is the arc of angle [2 x]. *)
Lemma haversine_of_half_angle p q x :
  0 <= x <= PI / 2 ->
  hav_a (fst p) (snd p) (fst q) (snd q) = sin x ^ 2 ->
  haversine p q = EARTH_RADIUS_METERS * (2 * x).
Proof.
  intros Hx Ha. unfold haversine. cbv zeta. rewrite Ha.
  pose proof PI_RGT_0 as HPI.
  assert (Hs : 0 <= sin x) by (apply sin_ge_0; lra).
  assert (Hc : 0 <= cos x) by (apply cos_ge_0; lra).
  rewrite (sqrt_pow2 _ Hs).
  replace (1 - sin x ^ 2) with (cos x ^ 2)
    by (pose proof (sin2_cos2 x) as E; unfold Rsqr in E; simpl; lra).
  rewrite (sqrt_pow2 _ Hc), (atan2_sin_cos x Hx). reflexivity.
Qed.

Lemma haversine_meridian lat1 lat2 lon :
  0 <= lat2 - lat1 <= 180 ->
  haversine (lat1, lon) (lat2, lon)
    = EARTH_RADIUS_METERS * math.radians (lat2 - lat1).
Proof.
  intros H. pose proof PI_RGT_0 as HPI.
  rewrite (haversine_of_half_angle _ _ (math.radians (lat2 - lat1) / 2)).
  - f_equal. lra.
  - unfold math.radians. split; nra.
  - cbn [fst snd]. unfold hav_a.
    replace (math.radians (lon - lon) / 2) with 0
      by (unfold math.radians; lra).
    rewrite sin_0. ring.
Qed.

Lemma haversine_equator lon1 lon2 :
  0 <= lon2 - lon1 <= 180 ->
  haversine (0, lon1) (0, lon2)
    = EARTH_RADIUS_METERS * math.radians (lon2 - lon1).
Proof.
  intros H. pose proof PI_RGT_0 as HPI.
  rewrite (haversine_of_half_angle _ _ (math.radians (lon2 - lon1) / 2)).
  - f_equal. lra.
  - unfold math.radians. split; nra.
  - cbn [fst snd]. unfold hav_a.
    replace (math.radians (0 - 0) / 2) with 0 by (unfold math.radians; lra).
    replace (math.radians 0) with 0 by (unfold math.radians; lra).
    rewrite sin_0, cos_0. ring.
Qed.

(** ** Route distances *)


(** Along a route the path between two vertices is the difference of
    their cumulative distances. *)
Lemma path_length_cumulative route ds (n : nat) : forall i di dj,
  cumulative_upto route (List.length route) ds ->
  (i + n < List.length route)%nat ->
  nth_error ds i = Some di -> nth_error ds (i + n) = Some dj ->
  path_length (vertices_between route i (i + n)) = dj - di.
Proof.
  induction n as [|n IH]; intros i di dj Hs Hb Hi Hj.
  - rewrite Nat.add_0_r in *. rewrite path_length_single.
    rewrite Hi in Hj. injection Hj as <-. lra.
  - destruct Hs as (Hlen & H0 & Hrec).
    destruct (nth_error route i) as [p|] eqn:Ep;
      [|apply nth_error_None in Ep; lia].
    destruct (nth_error route (S i)) as [p'|] eqn:Ep';
      [|apply nth_error_None in Ep'; lia].
    rewrite (vertices_between_step route i (i + S n) p p' ltac:(lia) Ep Ep').
    pose proof (Hrec i p p' di Ep Ep' Hi ltac:(lia)) as Hnext.
    replace (i + S n)%nat with (S i + n)%nat in * by lia.
    rewrite (IH (S i) (di + haversine p p') dj); try assumption; try lia.
    + lra.
    + split; [assumption|]. split; assumption.
Qed.

Lemma range_split a m b :
  (a <= m <= b)%Z -> range a b = range a m ++ range m b.
Proof.
  intros H. replace b with (m + Z.of_nat (Z.to_nat (b - m)))%Z by lia.
  induction (Z.to_nat (b - m)) as [|n IH].
  - rewrite Z.add_0_r, (range_nil m m) by lia. now rewrite app_nil_r.
  - replace (m + Z.of_nat (S n))%Z with (m + Z.of_nat n + 1)%Z by lia.
    rewrite !range_snoc by lia. rewrite IH. now rewrite app_assoc.
Qed.

Lemma route_distance_index_error route (start_index end_index : Z) :
  (0 <= start_index < end_index)%Z -> (len route <= end_index)%Z ->
  calculate_route_distance_between_points route start_index end_index
    = Raise IndexError.
Proof.
  intros Hs He. unfold calculate_route_distance_between_points.
  destruct (Z.geb_spec start_index end_index); [lia|].
  destruct (Z.le_gt_cases (len route) start_index) as [Hout|Hin].
  - rewrite range_cons by lia. cbn [for_loop].
    unfold route_distance_step, getitem.
    destruct (Z.ltb_spec start_index 0); [lia|].
    destruct (Z.ltb_spec start_index 0); [lia|].
    assert (E : nth_error route (Z.to_nat start_index) = None)
      by (apply nth_error_None; unfold len in Hout; lia).
    rewrite E. reflexivity.
  - set (last := (len route - 1)%Z).
    assert (Hr : range start_index end_index
                 = range start_index last ++ last :: range (last + 1) end_index).
    { rewrite (range_split start_index last end_index) by (unfold last; lia).
      f_equal. apply range_cons. unfold last. lia. }
    rewrite Hr, for_loop_app.
    pose proof (route_distance_loop route (Z.to_nat (last - start_index))
                  (Z.to_nat start_index) 0) as Hloop.
    replace (Z.to_nat start_index + Z.to_nat (last - start_index))%nat
      with (Z.to_nat last) in Hloop by (unfold last; lia).
    rewrite !Z2Nat.id in Hloop by (unfold last; lia).
    rewrite Hloop by (unfold last, len in *; lia). cbn [bind for_loop].
    unfold route_distance_step.
    destruct (getitem_in_range route last) as ([lat lon] & _ & E);
      [unfold last; lia|].
    rewrite E. cbn [bind]. unfold getitem.
    destruct (Z.ltb_spec (last + 1) 0); [unfold last in *; lia|].
    destruct (Z.ltb_spec (last + 1) 0); [unfold last in *; lia|].
    assert (E' : nth_error route (Z.to_nat (last + 1)) = None)
      by (apply nth_error_None; unfold last, len; lia).
    rewrite E'. reflexivity.
Qed.

(** ** Matching *)





Lemma le_e_trans m x y : le_e m x -> x <= y -> le_e m y.
Proof. destruct m; cbn; [lra|tauto]. Qed.

Section MatchFacts.

Variable polyline_decode : string -> result (list (R * R)).
Variables rider_start_lat rider_start_lon rider_dest_lat rider_dest_lon : R.

Local Abbreviation evaluate self seats trip :=
  (_evaluate_trip polyline_decode self trip rider_start_lat rider_start_lon
     rider_dest_lat rider_dest_lon seats).

(** The record of a match is determined by the two nearest points. *)
Lemma matched_trip_unique self self' trip route pr dr m m' :
  average_speed_kmh self = average_speed_kmh self' ->
  matched_trip self trip route pr dr m ->
  matched_trip self' trip route pr dr m' -> m = m'.
Proof.
  intros Hs (A1 & A2 & A3 & A4 & A5 & A6 & A7 & A8 & A9 & eta & A10 & A11)
            (B1 & B2 & B3 & B4 & B5 & B6 & B7 & B8 & B9 & eta' & B10 & B11).
  rewrite Hs in A10. rewrite A10 in B10. injection B10 as <-.
  rewrite A8 in B8. injection B8 as B8.
  destruct m, m'. cbn in *. congruence.
Qed.

Lemma evaluate_trip_more_lenient self self' seats seats' trip m :
  radius_meters self <= radius_meters self' ->
  average_speed_kmh self = average_speed_kmh self' ->
  (seats' <= seats)%Z ->
  evaluate self seats trip = Ok (Some m) ->
  evaluate self' seats' trip = Ok (Some m).
Proof.
  intros Hr Hs Hseats H. apply evaluate_trip_some_inv in H.
  destruct H as (H1 & H2 & H3 & route & H4 & H5 & pr & dr & H6 & H7 & H8 & H9 & H10 & Hm).
  destruct (evaluate_trip_match polyline_decode self' rider_start_lat rider_start_lon
              rider_dest_lat rider_dest_lon seats' trip route pr dr)
    as (m' & E & Hm'); try assumption; try lia;
    try (eapply le_e_trans; eassumption).
  rewrite E. do 2 f_equal. symmetry.
  eapply matched_trip_unique; eassumption.
Qed.

End MatchFacts.

(** ** The distance service *)

(** * More of the distance service *)

(** X1: [haversine_distance] is symmetric: the distance from a first point to
    a second is the distance from the second to the first. *)
Theorem haversine_distance_symmetric (lat1 lon1 lat2 lon2 : R) :
  haversine_distance lat1 lon1 lat2 lon2 = haversine_distance lat2 lon2 lat1 lon1.
Proof.
  rewrite !haversine_distance_ok. f_equal. apply haversine_sym.
Qed.

(** X2: a distance that [haversine_distance] returns lies between 0 and
    half the circumference of the Earth ([EARTH_RADIUS_METERS * PI]),
    and the distance from a point to itself is 0. *)
Theorem haversine_distance_range (lat1 lon1 lat2 lon2 : R) :
  (forall d, haversine_distance lat1 lon1 lat2 lon2 = Ok d ->
             0 <= d <= EARTH_RADIUS_METERS * PI) /\
  haversine_distance lat1 lon1 lat1 lon1 = Ok 0.
Proof.
  split.
  - intros d. rewrite haversine_distance_ok. intros E. injection E as <-.
    split; [apply haversine_nonneg|apply haversine_le_half_circumference].
  - rewrite haversine_distance_ok. f_equal. apply haversine_same_point.
Qed.

(** X3: along a meridian, and along the equator, [haversine_distance] is
    the length of the arc: the radius times the difference of the two
    latitudes (longitudes) in radians, for a difference of at most 180
    degrees. *)
Theorem haversine_distance_of_an_arc :
  (forall lat1 lat2 lon,
     0 <= lat2 - lat1 <= 180 ->
     haversine_distance lat1 lon lat2 lon
       = Ok (EARTH_RADIUS_METERS * math.radians (lat2 - lat1))) /\
  (forall lon1 lon2,
     0 <= lon2 - lon1 <= 180 ->
     haversine_distance 0 lon1 0 lon2
       = Ok (EARTH_RADIUS_METERS * math.radians (lon2 - lon1))).
Proof.
  split; intros; rewrite haversine_distance_ok; f_equal;
    [now apply haversine_meridian|now apply haversine_equator].
Qed.

Lemma route_distance_cumulative
  (route_points : list (R * R)) (start_index end_index : Z) :
  (0 <= start_index <= end_index)%Z -> (end_index < len route_points)%Z ->
  exists cumulative_distance distances_from_start d_start d_end,
    cumulative_distances route_points
      = Ok (cumulative_distance, distances_from_start) /\
    nth_error distances_from_start (Z.to_nat start_index) = Some d_start /\
    nth_error distances_from_start (Z.to_nat end_index) = Some d_end /\
    calculate_route_distance_between_points route_points start_index end_index
      = Ok (d_end - d_start).
Proof.
  intros Hs He.
  assert (Hne : route_points <> []).
  { intros ->. unfold len in He. cbn in He. lia. }
  destruct (cumulative_distances_spec route_points Hne) as (c & ds & Ec & Hcu).
  pose proof Hcu as (Hlen & _).
  destruct (nth_error ds (Z.to_nat start_index)) as [d1|] eqn:E1;
    [|apply nth_error_None in E1; unfold len in *; lia].
  destruct (nth_error ds (Z.to_nat end_index)) as [d2|] eqn:E2;
    [|apply nth_error_None in E2; unfold len in *; lia].
  exists c, ds, d1, d2. repeat (split; [assumption|]).
  rewrite calculate_route_distance_spec by lia.
  destruct (Z.geb_spec start_index end_index) as [G|L].
  - assert (start_index = end_index) by lia. subst.
    rewrite E1 in E2. injection E2 as <-. f_equal. lra.
  - f_equal.
    pose proof (path_length_cumulative route_points ds
                  (Z.to_nat end_index - Z.to_nat start_index)
                  (Z.to_nat start_index) d1 d2 Hcu) as H.
    replace (Z.to_nat start_index + (Z.to_nat end_index - Z.to_nat start_index))%nat
      with (Z.to_nat end_index) in H by lia.
    apply H; try assumption. unfold len in *. lia.
Qed.

(** X5: route distances grow with the stretch: for
    [0 <= i <= j <= k < len(route_points)] the distances from [i] to [j]
    and from [j] to [k] are not negative and neither exceeds the distance
    from [i] to [k]. *)
Theorem route_distance_monotone
  (route_points : list (R * R)) (i j k : Z) :
  (0 <= i <= j)%Z -> (j <= k < len route_points)%Z ->
  exists d_ij d_jk d_ik,
    calculate_route_distance_between_points route_points i j = Ok d_ij /\
    calculate_route_distance_between_points route_points j k = Ok d_jk /\
    calculate_route_distance_between_points route_points i k = Ok d_ik /\
    0 <= d_ij <= d_ik /\ 0 <= d_jk <= d_ik.
Proof.
  intros Hi Hk.
  destruct (route_distance_cumulative route_points i j)
    as (c & ds & di & dj & Ec & Ei & Ej & Eij); [lia|lia|].
  destruct (route_distance_cumulative route_points j k)
    as (c' & ds' & dj' & dk & Ec' & Ej' & Ek & Ejk); [lia|lia|].
  destruct (route_distance_cumulative route_points i k)
    as (c'' & ds'' & di' & dk' & Ec'' & Ei' & Ek' & Eik); [lia|lia|].
  rewrite Ec in Ec', Ec''. injection Ec' as <- <-. injection Ec'' as <- <-.
  rewrite Ej in Ej'. injection Ej' as <-. rewrite Ei in Ei'. injection Ei' as <-.
  rewrite Ek in Ek'. injection Ek' as <-.
  assert (Hne : route_points <> []).
  { intros ->. unfold len in Hk. cbn in Hk. lia. }
  destruct (cumulative_distances_spec route_points Hne) as (c0 & ds0 & Ec0 & Hcu).
  rewrite Ec in Ec0. injection Ec0 as <- <-.
  assert (di <= dj).
  { apply (cumulative_upto_monotone route_points _ ds Hcu (Nat.le_refl _)
             (Z.to_nat j) (Z.to_nat i)); [lia|assumption|assumption]. }
  assert (dj <= dk).
  { apply (cumulative_upto_monotone route_points _ ds Hcu (Nat.le_refl _)
             (Z.to_nat k) (Z.to_nat j)); [lia|assumption|assumption]. }
  exists (dj - di), (dk - dj), (dk - di). rewrite Eij, Ejk, Eik.
  repeat split; try reflexivity; lra.
Qed.

Lemma route_distance_monotone_witness :
  (0 <= 0 <= 1)%Z /\ (1 <= 1 < len equator_route)%Z /\
  exists d_ij d_jk d_ik,
    calculate_route_distance_between_points equator_route 0 1 = Ok d_ij /\
    calculate_route_distance_between_points equator_route 1 1 = Ok d_jk /\
    calculate_route_distance_between_points equator_route 0 1 = Ok d_ik /\
    0 <= d_ij <= d_ik /\ 0 <= d_jk <= d_ik.
Proof.
  assert (H1 : (0 <= 0 <= 1)%Z) by lia.
  assert (H2 : (1 <= 1 < len equator_route)%Z)
    by (unfold equator_route, len; cbn [List.length]; lia).
  split; [exact H1|]. split; [exact H2|].
  exact (route_distance_monotone equator_route 0 1 1 H1 H2).
Defined.

(** X6: with [0 <= start_index < end_index] and [end_index] not below the
    length of the route, [calculate_route_distance_between_points]
    raises [IndexError]; it has no bounds check of its own. *)
Theorem route_distance_past_the_end
  (route_points : list (R * R)) (start_index end_index : Z) :
  (0 <= start_index < end_index)%Z -> (len route_points <= end_index)%Z ->
  calculate_route_distance_between_points route_points start_index end_index
    = Raise IndexError.
Proof. apply route_distance_index_error. Qed.

Lemma route_distance_past_the_end_witness :
  (0 <= 0 < 2)%Z /\ (len equator_route <= 2)%Z /\
  calculate_route_distance_between_points equator_route 0 2 = Raise IndexError.
Proof.
  assert (H1 : (0 <= 0 < 2)%Z) by lia.
  assert (H2 : (len equator_route <= 2)%Z)
    by (unfold equator_route, len; cbn [List.length]; lia).
  split; [exact H1|]. split; [exact H2|].
  exact (route_distance_past_the_end equator_route 0 2 H1 H2).
Defined.

(** X7: for a query point that is a vertex of the route, the nearest-point
    search reports distance 0 and a route index that is not after that
    vertex. *)
Theorem nearest_point_of_a_vertex
  (route_points : list (R * R)) (j : nat) (lat lon : R) :
  nth_error route_points j = Some (lat, lon) ->
  exists res,
    find_nearest_point_on_route lat lon route_points = Ok (Some res) /\
    distance_to_point res = Fin 0 /\
    (0 <= route_index res <= Z.of_nat j)%Z.
Proof.
  intros Hj.
  assert (Hne : route_points <> []) by (intros ->; destruct j; discriminate).
  destruct (find_nearest_point_on_route_spec lat lon route_points Hne)
    as (p & idx & d0 & c & ds & E & Hidx & Hp & Hmin & Hfirst & _).
  pose proof (Hmin j _ Hj) as H0. rewrite haversine_same_point in H0.
  pose proof (haversine_nonneg (lat, lon) p) as Hn.
  assert (Hz : haversine (lat, lon) p = 0) by lra.
  eexists. split; [exact E|]. cbn [distance_to_point route_index].
  split; [now rewrite Hz|]. split; [lia|].
  destruct (Z.le_gt_cases idx (Z.of_nat j)) as [L|G]; [assumption|].
  exfalso. pose proof (Hfirst j _ ltac:(lia) Hj) as Hlt.
  rewrite haversine_same_point in Hlt. lra.
Qed.

Lemma nearest_point_of_a_vertex_witness :
  nth_error equator_route 1 = Some (0, 1) /\
  exists res,
    find_nearest_point_on_route 0 1 equator_route = Ok (Some res) /\
    distance_to_point res = Fin 0.
Proof.
  split; [reflexivity|].
  destruct (nearest_point_of_a_vertex equator_route 1 0 1 eq_refl)
    as (res & E & D & _).
  exists res. split; assumption.
Defined.

Lemma for_loop_filter {S I} (body : S -> I -> result S) (g : I -> bool) l :
  (forall s x, g x = false -> body s x = Ok s) ->
  forall s, for_loop body (filter g l) s = for_loop body l s.
Proof.
  intros H. induction l as [|x l IH]; intros s; [reflexivity|].
  cbn [filter]. destruct (g x) eqn:E.
  - cbn [for_loop]. destruct (body s x); cbn [bind]; [apply IH|reflexivity].
  - cbn [for_loop]. rewrite (H s x E). cbn [bind]. apply IH.
Qed.

Lemma filter_map_filter {A B} (f : A -> option B) (g : A -> bool) l :
  (forall x, g x = false -> f x = None) ->
  filter_map f (filter g l) = filter_map f l.
Proof.
  intros H. induction l as [|x l IH]; [reflexivity|].
  cbn [filter filter_map]. destruct (g x) eqn:E.
  - cbn [filter_map]. now rewrite IH.
  - now rewrite (H x E), IH.
Qed.

Lemma filter_map_ids {A B} (f : A -> option B) (ida : A -> Z) (idb : B -> Z) l :
  (forall x y, f x = Some y -> idb y = ida x) ->
  map idb (filter_map f l)
  = map ida (filter (fun x => match f x with Some _ => true | None => false end) l).
Proof.
  intros H. induction l as [|x l IH]; [reflexivity|].
  cbn [filter filter_map]. destruct (f x) as [y|] eqn:E; [|assumption].
  cbn [map]. now rewrite (H x y E), IH.
Qed.

Lemma filter_length_le {A} (g : A -> bool) l :
  (List.length (filter g l) <= List.length l)%nat.
Proof.
  induction l as [|x l IH]; cbn; [lia|]. destruct (g x); cbn; lia.
Qed.

Section MoreMatching.

Variable polyline_decode : string -> result (list (R * R)).
Variables rider_start_lat rider_start_lon rider_dest_lat rider_dest_lon : R.

Local Abbreviation evaluate self seats trip :=
  (_evaluate_trip polyline_decode self trip rider_start_lat rider_start_lon
     rider_dest_lat rider_dest_lon seats).


(** X10: a match survives leniency: a trip that matches still matches, with
    the same [MatchedTrip], for a larger radius or fewer required seats
    (and the same average speed). *)
Theorem match_survives_leniency (self self' : Self)
  (seats_required seats_required' : Z) (trip : models.Trip) (m : MatchedTrip) :
  radius_meters self <= radius_meters self' ->
  average_speed_kmh self = average_speed_kmh self' ->
  (seats_required' <= seats_required)%Z ->
  evaluate self seats_required trip = Ok (Some m) ->
  evaluate self' seats_required' trip = Ok (Some m).
Proof. apply evaluate_trip_more_lenient. Qed.

(** X12: a trip whose geometry decodes to a single vertex matches no
    request: whatever [_evaluate_trip] returns for it is [None]. *)
Theorem single_vertex_route_never_matches (self : Self) (seats_required : Z)
  (trip : models.Trip) (vertex : R * R) (o : option MatchedTrip) :
  polyline_decode (models.route_geometry trip) = Ok [vertex] ->
  evaluate self seats_required trip = Ok o ->
  o = None.
Proof.
  intros Hdec E. destruct o as [m|]; [|reflexivity]. exfalso.
  apply evaluate_trip_some_inv in E.
  destruct E as (_ & _ & _ & route & Hdec' & Hne & pr & dr & Hp & _ & Hd & _ & Hgt & _).
  rewrite Hdec in Hdec'. injection Hdec' as <-.
  destruct (find_nearest_some rider_start_lat rider_start_lon [vertex] Hne)
    as (pr' & Ep & Bp).
  destruct (find_nearest_some rider_dest_lat rider_dest_lon [vertex] Hne)
    as (dr' & Ed & Bd).
  rewrite Hp in Ep. injection Ep as <-. rewrite Hd in Ed. injection Ed as <-.
  unfold len in *. cbn in Bp, Bd. lia.
Qed.

(** X13: the trip ids of the matches [find_matches] returns are the ids of the
    input trips that [_evaluate_trip] matches, in the order of the
    input; there are at most as many matches as trips. *)
Theorem find_matches_keeps_trip_order (self : Self) (seats_required : Z) :
  exists keep : models.Trip -> bool,
    (forall trip,
       keep trip = true <->
       exists m, evaluate self seats_required trip = Ok (Some m)) /\
    forall trips matches,
      find_matches polyline_decode self trips rider_start_lat rider_start_lon
        rider_dest_lat rider_dest_lon seats_required = Ok matches ->
      map trip_id matches = map models.id (filter keep trips) /\
      (List.length matches <= List.length trips)%nat.
Proof.
  exists (fun t =>
            match evaluation polyline_decode self rider_start_lat rider_start_lon
                    rider_dest_lat rider_dest_lon seats_required t with
            | Some _ => true
            | None => false
            end).
  split.
  { intros t. unfold evaluation.
    destruct (evaluate self seats_required t) as [[m|]|e]; split; intros H;
      try discriminate; try reflexivity.
    - now exists m.
    - destruct H as [m H]. discriminate.
    - destruct H as [m H]. discriminate. }
  intros trips matches H.
  apply find_matches_returned in H. destruct H as (_ & ->). cbn [app].
  assert (Hid : forall t m,
            evaluation polyline_decode self rider_start_lat rider_start_lon
              rider_dest_lat rider_dest_lon seats_required t = Some m ->
            trip_id m = models.id t).
  { intros t m E. unfold evaluation in E.
    destruct (evaluate self seats_required t) as [o|e] eqn:Hs; [|discriminate].
    subst o. apply evaluate_trip_some_inv in Hs.
    destruct Hs as (_ & _ & _ & route & _ & _ & pr & dr & _ & _ & _ & _ & _ & Hm).
    now destruct Hm as (Mid & _). }
  split.
  - apply (filter_map_ids _ models.id trip_id trips Hid).
  - rewrite <- (length_map trip_id), (filter_map_ids _ models.id trip_id trips Hid),
      length_map. apply filter_length_le.
Qed.

End MoreMatching.

(** X11: a request whose pickup and dropoff are the same point matches no
    trip: whatever [_evaluate_trip] returns for it is [None]. *)
Theorem same_point_request_never_matches
  (polyline_decode : string -> result (list (R * R))) (self : Self)
  (trip : models.Trip) (lat lon : R) (seats_required : Z)
  (o : option MatchedTrip) :
  _evaluate_trip polyline_decode self trip lat lon lat lon seats_required = Ok o ->
  o = None.
Proof.
  intros E. destruct o as [m|]; [|reflexivity]. exfalso.
  apply evaluate_trip_some_inv in E.
  destruct E as (_ & _ & _ & route & _ & _ & pr & dr & Hp & _ & Hd & _ & Hgt & _).
  rewrite Hp in Hd. injection Hd as <-. lia.
Qed.

Lemma same_point_request_never_matches_witness :
  exists o,
    _evaluate_trip decode_equator sample_service sample_trip 0 0 0 0 1 = Ok o /\
    o = None.
Proof.
  destruct (evaluate_trip_total decode_equator sample_service 0 0 0 0 1 sample_trip)
    as [o E].
  exists o. split; [exact E|].
  exact (same_point_request_never_matches decode_equator sample_service
           sample_trip 0 0 1 o E).
Defined.



Lemma match_survives_leniency_witness :
  radius_meters sample_service <= radius_meters lenient_service /\
  average_speed_kmh sample_service = average_speed_kmh lenient_service /\
  (1 <= 2)%Z /\
  exists m,
    _evaluate_trip decode_equator sample_service sample_trip 0 0 0 1 2
      = Ok (Some m) /\
    _evaluate_trip decode_equator lenient_service sample_trip 0 0 0 1 1
      = Ok (Some m).
Proof.
  assert (H1 : radius_meters sample_service <= radius_meters lenient_service)
    by (simpl; lra).
  assert (H2 : average_speed_kmh sample_service = average_speed_kmh lenient_service)
    by reflexivity.
  assert (H3 : (1 <= 2)%Z) by lia.
  split; [exact H1|]. split; [exact H2|]. split; [exact H3|].
  destruct nearest_on_equator_west as (pr & Ep & Ip & Dp).
  destruct nearest_on_equator_east as (dr & Ed & Id & Dd).
  destruct (evaluate_trip_match decode_equator sample_service 0 0 0 1 2
              sample_trip equator_route pr dr) as (m & E & _);
    try reflexivity; try assumption;
    try (rewrite ?Dp, ?Dd; simpl; lra); try (simpl; lia); try discriminate;
    try lia.
  exists m. split; [exact E|].
  exact (match_survives_leniency decode_equator 0 0 0 1 sample_service
           lenient_service 2 1 sample_trip m H1 H2 H3 E).
Defined.

Lemma single_vertex_route_never_matches_witness :
  decode_single (models.route_geometry sample_trip) = Ok [(0, 0)] /\
  exists o,
    _evaluate_trip decode_single sample_service sample_trip 0 0 0 1 1 = Ok o /\
    o = None.
Proof.
  split; [reflexivity|].
  destruct (evaluate_trip_total decode_single sample_service 0 0 0 1 1 sample_trip)
    as [o E].
  exists o. split; [exact E|].
  exact (single_vertex_route_never_matches decode_single 0 0 0 1 sample_service 1
           sample_trip (0, 0) o eq_refl E).
Defined.

(** * The match endpoint *)

Section MatchView.

Variable polyline_decode : string -> result (list (R * R)).
Variable DEFAULT_MATCHING_RADIUS_METERS : R.
Variable DEFAULT_AVERAGE_SPEED_KMH : R.

Local Abbreviation view_get :=
  (TripMatchView.get polyline_decode DEFAULT_MATCHING_RADIUS_METERS
     DEFAULT_AVERAGE_SPEED_KMH).

Local Abbreviation service radius :=
  (__init__ DEFAULT_MATCHING_RADIUS_METERS DEFAULT_AVERAGE_SPEED_KMH radius None).

(** X14: the query of the match endpoint (trips that allow requests, have
    the seats and have a geometry) drops no trip that would match and
    none that would fail: the endpoint does what [find_matches] does on
    all rows, and adds the number of matches. *)
Theorem match_view_prefilter_is_redundant
  (rows : list models.Trip) (data : TripMatchView.MatchQuery) :
  view_get rows data
  = (matches <-
       find_matches polyline_decode
         (service (Some (TripMatchView.intersection_radius_meters data)))
         rows
         (TripMatchView.starting_latitude data)
         (TripMatchView.starting_longitude data)
         (TripMatchView.destination_latitude data)
         (TripMatchView.destination_longitude data)
         (TripMatchView.no_of_seats_required data) ;;
     Ok (len matches, matches)).
Proof.
  unfold TripMatchView.get. cbv zeta. f_equal.
  unfold find_matches, TripMatchView.eligible_trips.
  rewrite !for_loop_filter; [reflexivity| |].
  - intros s t Hg. unfold find_matches_step, _evaluate_trip.
    destruct (models.is_ride_requests_allowed t); cbn [negb andb] in *;
      [|reflexivity].
    destruct (Z.geb_spec (models.available_seats t)
                (TripMatchView.no_of_seats_required data)); [discriminate|].
    destruct (Z.ltb_spec (models.available_seats t)
                (TripMatchView.no_of_seats_required data)); [reflexivity|lia].
  - intros s t Hg. unfold find_matches_step, _evaluate_trip.
    destruct (negb (models.is_ride_requests_allowed t)); [reflexivity|].
    destruct (models.available_seats t <? _)%Z; [reflexivity|].
    apply negb_false_iff in Hg. rewrite Hg. reflexivity.
Qed.

(** X15: the match endpoint treats a radius of 0 as no radius: the request
    is answered as with [DEFAULT_MATCHING_RADIUS_METERS]. *)
Theorem match_view_zero_radius_is_default
  (rows : list models.Trip) (lat1 lon1 lat2 lon2 : R) (seats : Z) :
  view_get rows
    {| TripMatchView.starting_latitude := lat1;
       TripMatchView.starting_longitude := lon1;
       TripMatchView.destination_latitude := lat2;
       TripMatchView.destination_longitude := lon2;
       TripMatchView.no_of_seats_required := seats;
       TripMatchView.intersection_radius_meters := 0 |}
  = view_get rows
    {| TripMatchView.starting_latitude := lat1;
       TripMatchView.starting_longitude := lon1;
       TripMatchView.destination_latitude := lat2;
       TripMatchView.destination_longitude := lon2;
       TripMatchView.no_of_seats_required := seats;
       TripMatchView.intersection_radius_meters :=
         DEFAULT_MATCHING_RADIUS_METERS |}.
Proof.
  unfold TripMatchView.get, __init__, or_else. cbn.
  destruct (Req_dec_T 0 0) as [_|H]; [|now destruct H].
  destruct (Req_dec_T DEFAULT_MATCHING_RADIUS_METERS 0) as [->|_]; reflexivity.
Qed.

End MatchView.

(** ** The subscribed set and the handlers *)

Import TripLocationConsumer.

Lemma key_eq_sym a b : key_eq a b = key_eq b a.
Proof.
  destruct a, b; cbn; try reflexivity;
    try (destruct (Req_dec_T _ _), (Req_dec_T _ _); congruence).
  apply String.eqb_sym.
Qed.

Lemma key_eq_refl a : hashable a = true -> key_eq a a = true.
Proof.
  destruct a; cbn; try reflexivity; try discriminate; intros _;
    try (destruct (Req_dec_T _ _); congruence).
  apply String.eqb_refl.
Qed.

Lemma key_eq_trans a b c :
  key_eq a b = true -> key_eq b c = true -> key_eq a c = true.
Proof.
  destruct a, b, c; cbn; try discriminate; try reflexivity;
    try (repeat destruct (Req_dec_T _ _); congruence).
  intros H1 H2. apply String.eqb_eq in H1, H2. subst. apply String.eqb_refl.
Qed.

Lemma existsb_key_eq_false v s :
  existsb (key_eq v) s = false <-> forall x, In x s -> key_eq v x = false.
Proof.
  induction s as [|y s IH]; cbn.
  - split; [intros _ x []|reflexivity].
  - rewrite orb_false_iff, IH. split.
    + intros [H1 H2] x [<-|Hx]; auto.
    + intros H. split; [apply H; now left|]. intros x Hx. apply H. now right.
Qed.

Lemma set_ok_app s v :
  set_ok s -> hashable v = true -> existsb (key_eq v) s = false ->
  set_ok (s ++ [v]).
Proof.
  intros Hs Hv Hn. induction s as [|x s IH]; cbn.
  - repeat split; assumption.
  - destruct Hs as (Hx & Hxs & Hs). cbn in Hn. apply orb_false_iff in Hn as [Hvx Hn].
    split; [assumption|]. split; [|now apply IH].
    rewrite existsb_app, Hxs. cbn. now rewrite key_eq_sym, Hvx.
Qed.

Lemma existsb_filter_false {A} (f g : A -> bool) s :
  existsb f s = false -> existsb f (filter g s) = false.
Proof.
  induction s as [|x s IH]; cbn; [reflexivity|].
  intros H. apply orb_false_iff in H as [H1 H2].
  destruct (g x); cbn; [rewrite H1|]; now apply IH.
Qed.

Lemma set_ok_filter g s : set_ok s -> set_ok (filter g s).
Proof.
  induction s as [|x s IH]; cbn; [trivial|].
  intros (Hx & Hxs & Hs). destruct (g x); cbn; [|now apply IH].
  split; [assumption|]. split; [now apply existsb_filter_false|now apply IH].
Qed.

Lemma set_add_ok s v s' : set_ok s -> set_add s v = Ok s' -> set_ok s'.
Proof.
  unfold set_add. intros Hs. destruct (hashable v) eqn:Hv; [|discriminate].
  destruct (existsb (key_eq v) s) eqn:Hn; intros E; injection E as <-;
    [assumption|now apply set_ok_app].
Qed.

Lemma set_discard_ok s v s' : set_ok s -> set_discard s v = Ok s' -> set_ok s'.
Proof.
  unfold set_discard. intros Hs. destruct (hashable v); [|discriminate].
  intros E. injection E as <-. now apply set_ok_filter.
Qed.

Lemma set_discard_absent s v :
  existsb (key_eq v) s = false ->
  filter (fun x => negb (key_eq v x)) s = s.
Proof.
  induction s as [|x s IH]; cbn; [reflexivity|].
  intros H. apply orb_false_iff in H as [H1 H2]. rewrite H1. cbn.
  now rewrite IH.
Qed.

Lemma set_discard_gone s v :
  existsb (key_eq v) (filter (fun x => negb (key_eq v x)) s) = false.
Proof.
  induction s as [|x s IH]; cbn; [reflexivity|].
  destruct (key_eq v x) eqn:E; cbn; [assumption|]. now rewrite E.
Qed.

(** Adding a new member and discarding it gives the set back. *)
Lemma set_add_discard s v s1 s2 :
  existsb (key_eq v) s = false ->
  set_add s v = Ok s1 -> set_discard s1 v = Ok s2 -> s2 = s.
Proof.
  unfold set_add, set_discard. intros Hn.
  destruct (hashable v) eqn:Hv; [|discriminate]. rewrite Hn.
  intros E. injection E as <-. intros E. injection E as <-.
  rewrite filter_app, (set_discard_absent _ _ Hn). cbn.
  rewrite (key_eq_refl _ Hv). cbn. now rewrite app_nil_r.
Qed.

Section Handlers.

Variable str : json -> string.
Variable trip_exists : json -> result bool.
Variable send_and_wait : string -> json -> result unit.

Local Abbreviation group trip_id := (_get_group_name str trip_id).

Lemma handle_subscribe_spec data trip_id w :
  get data "trip_id" JNull = Ok trip_id ->
  _handle_subscribe str trip_exists data w =
  if negb (truthy trip_id)
  then (Ok tt, after w [SendJson (error_message "Missing trip_id")])
  else
    match trip_exists trip_id with
    | Raise e => (Raise e, w)
    | Ok false =>
        (Ok tt, after w [SendJson (error_message
                           ("Trip " ++ str trip_id ++ " not found"))])
    | Ok true =>
        if valid_group_name (group trip_id) then
          match set_add (subscribed_trips (self w)) trip_id with
          | Raise e =>
              (Raise e,
               after w [GroupAdd (group trip_id) (channel_name (self w))])
          | Ok s =>
              (Ok tt, after_with w s
                        [GroupAdd (group trip_id) (channel_name (self w));
                         SendJson (status_message "SUBSCRIBED" trip_id)])
          end
        else (Raise TypeError, w)
    end.
Proof.
  intros Hg. unfold _handle_subscribe, send_json, group_add. run. rewrite Hg.
  destruct (truthy trip_id); cbn [negb]; [|reflexivity].
  destruct (trip_exists trip_id) as [[|]|e]; cbn [negb]; try reflexivity.
  destruct (valid_group_name (group trip_id)); [|reflexivity].
  cbn [self trace channel_name subscribed_trips].
  destruct (set_add (subscribed_trips (self w)) trip_id) as [s|e];
    cbn [self trace]; [|reflexivity].
  now rewrite <- app_assoc.
Qed.

Lemma unsubscribe_from_trip_spec trip_id w :
  _unsubscribe_from_trip str trip_id w =
  match set_contains (subscribed_trips (self w)) trip_id with
  | Raise e => (Raise e, w)
  | Ok false => (Ok tt, w)
  | Ok true =>
      (Ok tt, after_with w
                (filter (fun x => negb (key_eq trip_id x))
                        (subscribed_trips (self w)))
                [GroupDiscard (group trip_id) (channel_name (self w))])
  end.
Proof.
  unfold _unsubscribe_from_trip. run. unfold set_contains, set_discard.
  destruct (hashable trip_id); [|reflexivity].
  destruct (existsb (key_eq trip_id) (subscribed_trips (self w))); reflexivity.
Qed.

Lemma handle_unsubscribe_spec data trip_id w :
  get data "trip_id" JNull = Ok trip_id ->
  _handle_unsubscribe str data w =
  if negb (truthy trip_id)
  then (Ok tt, after w [SendJson (error_message "Missing trip_id")])
  else
    match set_contains (subscribed_trips (self w)) trip_id with
    | Raise e => (Raise e, w)
    | Ok false =>
        (Ok tt, after w [SendJson (status_message "UNSUBSCRIBED" trip_id)])
    | Ok true =>
        (Ok tt, after_with w
                  (filter (fun x => negb (key_eq trip_id x))
                          (subscribed_trips (self w)))
                  [GroupDiscard (group trip_id) (channel_name (self w));
                   SendJson (status_message "UNSUBSCRIBED" trip_id)])
    end.
Proof.
  intros Hg. unfold _handle_unsubscribe, send_json.
  unfold bindM at 1, lift at 1. rewrite Hg.
  destruct (truthy trip_id); cbn [negb]; [|reflexivity].
  unfold bindM. rewrite unsubscribe_from_trip_spec.
  destruct (set_contains (subscribed_trips (self w)) trip_id) as [[|]|e];
    run; try reflexivity.
  now rewrite <- app_assoc.
Qed.

(** What the fallback of [publish_location] does with an update. *)
Lemma broadcast_location_spec trip_id latitude longitude timestamp w :
  let update := location_update trip_id latitude longitude timestamp in
  _broadcast_location str update w =
  if valid_group_name (group trip_id)
  then (Ok tt, after w [GroupSend (group trip_id) (group_event update)])
  else (Raise TypeError, w).
Proof.
  intros update. unfold _broadcast_location, group_send. run.
  change (get update "trip_id" JNull) with (Ok trip_id). cbv iota beta.
  unfold _get_group_name, group_event.
  now destruct (valid_group_name ("trip_location_" ++ str trip_id)).
Qed.

Lemma publish_location_spec client trip_id latitude longitude timestamp w :
  let update := location_update trip_id latitude longitude timestamp in
  publish_location str send_and_wait client update w =
  if producer client &&
     match send_and_wait (topic client) update with
     | Ok _ => true
     | Raise _ => false
     end
  then (Ok tt, after w [KafkaSend (topic client) update])
  else if valid_group_name (group trip_id)
  then (Ok tt, after w [GroupSend (group trip_id) (group_event update)])
  else (Raise TypeError, w).
Proof.
  intros update. unfold publish_location.
  destruct (producer client); cbn [negb andb];
    [|apply broadcast_location_spec].
  unfold try_except, bindM, lift.
  destruct (send_and_wait (topic client) update) as [[]|e];
    [reflexivity|apply broadcast_location_spec].
Qed.

Lemma handle_publish_location_spec data trip_id latitude longitude timestamp w :
  get data "trip_id" JNull = Ok trip_id ->
  get data "latitude" JNull = Ok latitude ->
  get data "longitude" JNull = Ok longitude ->
  get data "timestamp" JNull = Ok timestamp ->
  let update := location_update trip_id latitude longitude timestamp in
  _handle_publish_location str trip_exists send_and_wait data w =
  if negb (truthy trip_id && is_not_none latitude && is_not_none longitude)
  then (Ok tt, after w [SendJson (error_message
                  "Missing required fields: trip_id, latitude, longitude")])
  else
    match trip_exists trip_id with
    | Raise e => (Raise e, w)
    | Ok false =>
        (Ok tt, after w [SendJson (error_message
                           ("Trip " ++ str trip_id ++ " not found"))])
    | Ok true =>
        match kafka_producer (self w) with
        | None =>
            (Ok tt, after w [SendJson (error_message
                               "Failed to publish location update")])
        | Some client =>
            if producer client &&
               match send_and_wait (topic client) update with
               | Ok _ => true
               | Raise _ => false
               end
            then
              (Ok tt,
               after w [KafkaSend (topic client) update;
                        SendJson (status_message "LOCATION_PUBLISHED" trip_id)])
            else if valid_group_name (group trip_id)
            then
              (Ok tt,
               after w [GroupSend (group trip_id) (group_event update);
                        SendJson (status_message "LOCATION_PUBLISHED" trip_id)])
            else
              (Ok tt, after w [SendJson (error_message
                                 "Failed to publish location update")])
        end
    end.
Proof.
  intros H1 H2 H3 H4 update. unfold _handle_publish_location, send_json.
  unfold bindM at 1, lift at 1. rewrite H1.
  unfold bindM at 1, lift at 1. rewrite H2.
  unfold bindM at 1, lift at 1. rewrite H3.
  unfold bindM at 1, lift at 1. rewrite H4.
  destruct (negb _); [reflexivity|].
  unfold bindM at 1, lift at 1.
  destruct (trip_exists trip_id) as [[|]|e]; cbn [negb]; try reflexivity.
  unfold try_except, bindM at 1, bindM at 1, get_self.
  destruct (kafka_producer (self w)) as [client|] eqn:Ek.
  - fold (location_update trip_id latitude longitude timestamp).
    rewrite publish_location_spec. fold update.
    destruct (producer client && _).
    + run. now rewrite <- app_assoc.
    + destruct (valid_group_name (group trip_id)).
      * run. now rewrite <- app_assoc.
      * reflexivity.
  - reflexivity.
Qed.

End Handlers.

Section Outcome.

Variable str : json -> string.
Variable trip_exists : json -> result bool.
Variable send_and_wait : string -> json -> result unit.

Local Abbreviation receive content :=
  (receive_json str trip_exists send_and_wait content).

Lemma get_dict items key default :
  exists v, get (JDict items) key default = Ok v.
Proof. cbn. now eexists. Qed.

Lemma get_not_dict data key default :
  (forall items, data <> JDict items) ->
  get data key default = Raise AttributeError.
Proof. destruct data; intros H; try reflexivity. now destruct (H items). Qed.

Lemma handle_subscribe_handled data w r w' :
  _handle_subscribe str trip_exists data w = (r, w') -> handled w r w'.
Proof.
  intros E. revert E.
  destruct data as [| | | | | |items];
    try (cbn; intros E; injection E as <- <-; handled_solve).
  destruct (get_dict items "trip_id" JNull) as [t Ht].
  rewrite (handle_subscribe_spec _ _ _ _ _ Ht).
  destruct (negb (truthy t)); [handled_solve|].
  destruct (trip_exists t) as [[|]|e]; try handled_solve.
  destruct (valid_group_name (_get_group_name str t)); [|handled_solve].
  destruct (set_add (subscribed_trips (self w)) t) as [s|e] eqn:Es;
    handled_solve.
  intros Hs. eapply set_add_ok; eassumption.
Qed.

Lemma handle_unsubscribe_handled data w r w' :
  _handle_unsubscribe str data w = (r, w') -> handled w r w'.
Proof.
  intros E. revert E.
  destruct data as [| | | | | |items];
    try (cbn; intros E; injection E as <- <-; handled_solve).
  destruct (get_dict items "trip_id" JNull) as [t Ht].
  rewrite (handle_unsubscribe_spec _ _ _ _ Ht).
  destruct (negb (truthy t)); [handled_solve|].
  destruct (set_contains (subscribed_trips (self w)) t) as [[|]|e];
    handled_solve.
  intros Hs. now apply set_ok_filter.
Qed.

Lemma handle_publish_location_handled data w r w' :
  _handle_publish_location str trip_exists send_and_wait data w = (r, w') ->
  handled w r w'.
Proof.
  intros E. revert E.
  destruct data as [| | | | | |items];
    try (cbn; intros E; injection E as <- <-; handled_solve).
  destruct (get_dict items "trip_id" JNull) as [t Ht].
  destruct (get_dict items "latitude" JNull) as [la Hla].
  destruct (get_dict items "longitude" JNull) as [lo Hlo].
  destruct (get_dict items "timestamp" JNull) as [ts Hts].
  rewrite (handle_publish_location_spec _ _ _ _ _ _ _ _ _ Ht Hla Hlo Hts).
  destruct (negb _); [handled_solve|].
  destruct (trip_exists t) as [[|]|e]; try handled_solve.
  destruct (kafka_producer (self w)) as [client|]; [|handled_solve].
  destruct (producer client && _); [handled_solve|].
  destruct (valid_group_name (_get_group_name str t)); handled_solve.
Qed.

Lemma receive_json_dispatch content type data w :
  request content type data ->
  receive content w =
  if String.eqb "PUBLISH_LOCATION" type
  then _handle_publish_location str trip_exists send_and_wait data w
  else if String.eqb "SUBSCRIBE_TO_TRIP_LOCATION" type
  then _handle_subscribe str trip_exists data w
  else if String.eqb "UNSUBSCRIBE_FROM_TRIP_LOCATION" type
  then _handle_unsubscribe str data w
  else (Ok tt, after w [SendJson (error_message
                          ("Unknown message type: " ++ str (JStr type)))]).
Proof.
  intros [Ht Hd]. unfold receive_json.
  unfold bindM at 1, lift at 1. rewrite Ht.
  unfold bindM at 1, lift at 1. rewrite Hd.
  unfold bindM at 1, lift at 1. unfold handlers_get, handlers. cbn [hashable lookup].
  destruct (String.eqb "PUBLISH_LOCATION" type); [reflexivity|].
  destruct (String.eqb "SUBSCRIBE_TO_TRIP_LOCATION" type); [reflexivity|].
  destruct (String.eqb "UNSUBSCRIBE_FROM_TRIP_LOCATION" type); reflexivity.
Qed.

Lemma receive_json_handled content w r w' :
  receive content w = (r, w') -> handled w r w'.
Proof.
  destruct content as [| | | | | |items];
    try (cbn; handled_solve).
  destruct (get_dict items "type" JNull) as [mt Hmt].
  destruct (get_dict items "data" (JDict [])) as [data Hd].
  destruct mt as [| | | |type| |].
  5:{ rewrite (receive_json_dispatch _ type data w (conj Hmt Hd)).
      destruct (String.eqb "PUBLISH_LOCATION" type);
        [apply handle_publish_location_handled|].
      destruct (String.eqb "SUBSCRIBE_TO_TRIP_LOCATION" type);
        [apply handle_subscribe_handled|].
      destruct (String.eqb "UNSUBSCRIBE_FROM_TRIP_LOCATION" type);
        [apply handle_unsubscribe_handled|].
      handled_solve. }
  all: unfold receive_json; unfold bindM at 1, lift at 1; rewrite Hmt;
       unfold bindM at 1, lift at 1; rewrite Hd;
       unfold bindM at 1, lift at 1; cbn [handlers_get hashable];
       unfold send_json, emit; handled_solve.
Qed.

End Outcome.

Section Lifecycle.

Variable str : json -> string.
Variable producer_stop : result unit.

Local Abbreviation group trip_id := (_get_group_name str trip_id).

Lemma for_each_unsubscribe l : forall w,
  subscribed_trips (self w) = l -> set_ok l ->
  for_each (_unsubscribe_from_trip str) l w =
  (Ok tt,
   after_with w []
     (map (fun t => GroupDiscard (group t) (channel_name (self w))) l)).
Proof.
  induction l as [|x rest IH]; intros w Hw Hs.
  - cbn. unfold ret, after_with. rewrite app_nil_r.
    destruct w as [[c s k] t]. cbn in *. now subst.
  - cbn [for_each]. unfold bindM. rewrite unsubscribe_from_trip_spec.
    destruct Hs as (Hx & Hxr & Hs).
    unfold set_contains. rewrite Hx, Hw. cbn [existsb].
    rewrite (key_eq_refl _ Hx). cbn [orb filter].
    rewrite (key_eq_refl _ Hx). cbn [negb].
    rewrite (set_discard_absent _ _ Hxr).
    rewrite IH; [|reflexivity|assumption].
    unfold after_with. cbn [self trace channel_name kafka_producer map].
    now rewrite <- app_assoc.
Qed.

Lemma disconnect_spec close_code w :
  set_ok (subscribed_trips (self w)) ->
  disconnect str producer_stop close_code w =
  (match kafka_producer (self w) with
   | Some client => if producer client then producer_stop else Ok tt
   | None => Ok tt
   end,
   after_with w []
     (map (fun t => GroupDiscard (group t) (channel_name (self w)))
          (subscribed_trips (self w)))).
Proof.
  intros Hs. unfold disconnect. unfold bindM at 1, get_self at 1.
  unfold bindM at 1. rewrite (for_each_unsubscribe _ w eq_refl Hs).
  unfold bindM, get_self, after_with, stop, lift, ret.
  cbn [self kafka_producer].
  destruct (kafka_producer (self w)) as [client|]; [|reflexivity].
  destruct (producer client); reflexivity.
Qed.

End Lifecycle.

(** ** The consumer loop *)

Import KafkaConsumerClient.

Section Loop.

Variable str : json -> string.

Lemma consume_loop_healthy good : forall rest sent,
  Forall (accepted str) good ->
  consume_loop str (good ++ rest) sent =
  consume_loop str rest (sent ++ filter_map (broadcast_of str) good).
Proof.
  induction good as [|t good IH]; intros rest sent Hg.
  - cbn. now rewrite app_nil_r.
  - inversion Hg as [|? ? [[items ->] Hv] Hg']; subst.
    cbn [app consume_loop negb filter_map]. unfold broadcast_of in Hv |- *.
    destruct (get (JDict items) "trip_id" JNull) as [trip_id|e] eqn:E;
      [|discriminate E].
    destruct (truthy trip_id).
    + unfold _get_group_name in Hv |- *.
      rewrite (Hv _ _ eq_refl), IH by assumption. unfold group_event.
      now rewrite <- app_assoc.
    + now apply IH.
Qed.

Lemma consume_loop_stops t rest sent :
  ~ healthy t -> exists r, consume_loop str (t :: rest) sent = (r, sent).
Proof.
  intros Hn. destruct t as [running value|e]; [|now eexists].
  cbn [consume_loop]. destruct running; cbn [negb]; [|now eexists].
  destruct value; try (now eexists).
  exfalso. apply Hn. now eexists.
Qed.

Lemma consume_loop_grows turns : forall sent,
  exists r more, consume_loop str turns sent = (r, sent ++ more) /\
                 Forall (fun e => exists g m, e = GroupSend g m) more.
Proof.
  induction turns as [|t turns IH]; intros sent.
  - exists (Ok tt), []. cbn. now rewrite app_nil_r.
  - destruct t as [running value|e].
    + cbn [consume_loop]. destruct running; cbn [negb].
      * destruct (get value "trip_id" JNull) as [trip_id|e].
        -- destruct (truthy trip_id).
           ++ destruct (valid_group_name ("trip_location_" ++ str trip_id)).
              ** destruct (IH (sent ++ [GroupSend ("trip_location_" ++ str trip_id)
                                          (JDict [("type"%string, JStr "trip_location_update");
                                                  ("data"%string, value)])]))
                   as (r & more & E & Hm).
                 rewrite E. exists r. eexists (_ :: more).
                 rewrite <- app_assoc. split; [reflexivity|].
                 constructor; [now eexists _, _|assumption].
              ** exists (Raise TypeError), []. now rewrite app_nil_r.
           ++ apply IH.
        -- exists (Raise e), []. now rewrite app_nil_r.
      * exists (Ok tt), []. now rewrite app_nil_r.
    + exists (Raise e), []. cbn. now rewrite app_nil_r.
Qed.

End Loop.

(** * More of the connection gateway *)

Section Gateway.

Variable str : json -> string.
Variable trip_exists : json -> result bool.
Variable send_and_wait : string -> json -> result unit.

Local Abbreviation receive content :=
  (receive_json str trip_exists send_and_wait content).

Local Abbreviation group trip_id := (_get_group_name str trip_id).

(** X16: [receive_json] sends exactly one reply when it returns, after
    everything else it does, and none when it raises; it only adds to
    the trace. *)
Theorem receive_json_replies_once (content : json) (w : world) :
  match receive content w with
  | (Ok _, w') =>
      exists effs reply,
        trace w' = trace w ++ effs ++ [SendJson reply] /\ no_reply effs
  | (Raise _, w') =>
      exists effs, trace w' = trace w ++ effs /\ no_reply effs
  end.
Proof.
  destruct (receive content w) as [r w'] eqn:E.
  apply receive_json_handled in E.
  destruct E as (_ & _ & _ & effs & Ht & Hr).
  destruct r as [u|e].
  - destruct Hr as (pre & reply & -> & Hn). now exists pre, reply.
  - now exists effs.
Qed.

(** X17: whatever the message and however [receive_json] ends, the
    subscribed set stays a set of hashable values without repeats, and
    the channel name and the producer stay what they were. *)
Theorem receive_json_keeps_the_set (content : json) (w : world) :
  set_ok (subscribed_trips (self w)) ->
  let w' := snd (receive content w) in
  set_ok (subscribed_trips (self w')) /\
  channel_name (self w') = channel_name (self w) /\
  kafka_producer (self w') = kafka_producer (self w).
Proof.
  intros Hs. destruct (receive content w) as [r w'] eqn:E. cbn [snd].
  apply receive_json_handled in E.
  destruct E as (Hc & Hk & Hset & _). auto.
Qed.

Lemma subscribe_adds_lemma (content data trip_id : json) (w : world) :
  request content "SUBSCRIBE_TO_TRIP_LOCATION" data ->
  get data "trip_id" JNull = Ok trip_id ->
  truthy trip_id = true ->
  hashable trip_id = true ->
  trip_exists trip_id = Ok true ->
  valid_group_name (group trip_id) = true ->
  exists s,
    receive content w =
      (Ok tt,
       after_with w s
         [GroupAdd (group trip_id) (channel_name (self w));
          SendJson (status_message "SUBSCRIBED" trip_id)]) /\
    set_contains s trip_id = Ok true /\
    (forall x, set_contains (subscribed_trips (self w)) x = Ok true ->
               set_contains s x = Ok true) /\
    (set_contains (subscribed_trips (self w)) trip_id = Ok true ->
     s = subscribed_trips (self w)).
Proof.
  intros Hreq Hget Ht Hh He Hv.
  rewrite (receive_json_dispatch _ _ _ _ _ _ w Hreq). cbn [String.eqb Ascii.eqb Bool.eqb].
  rewrite (handle_subscribe_spec _ _ _ _ w Hget), Ht, He, Hv. cbn [negb].
  unfold set_add, set_contains. rewrite Hh.
  destruct (existsb (key_eq trip_id) (subscribed_trips (self w))) eqn:Ex.
  - eexists. split; [reflexivity|]. rewrite Ex. repeat split; auto.
  - eexists. split; [reflexivity|]. rewrite existsb_app. cbn [existsb].
    rewrite (key_eq_refl _ Hh), orb_true_r. cbn [orb].
    split; [reflexivity|]. split; [|discriminate].
    intros x. destruct (hashable x); [|discriminate].
    intros Hx. injection Hx as Hx. now rewrite existsb_app, Hx.
Qed.

(** X18: a subscription to an existing trip whose group name the channel
    layer accepts joins the group of the trip, then confirms; afterwards
    the trip is in the subscribed set, every trip subscribed before
    still is, and a trip that was subscribed already leaves the set as
    it was. *)
Theorem subscribe_adds_the_trip (content data trip_id : json) (w : world) :
  request content "SUBSCRIBE_TO_TRIP_LOCATION" data ->
  get data "trip_id" JNull = Ok trip_id ->
  truthy trip_id = true ->
  hashable trip_id = true ->
  trip_exists trip_id = Ok true ->
  valid_group_name (group trip_id) = true ->
  exists s,
    receive content w =
      (Ok tt,
       after_with w s
         [GroupAdd (group trip_id) (channel_name (self w));
          SendJson (status_message "SUBSCRIBED" trip_id)]) /\
    set_contains s trip_id = Ok true /\
    (forall x, set_contains (subscribed_trips (self w)) x = Ok true ->
               set_contains s x = Ok true) /\
    (set_contains (subscribed_trips (self w)) trip_id = Ok true ->
     s = subscribed_trips (self w)).
Proof. apply subscribe_adds_lemma. Qed.

(** X19: a refused subscription changes nothing: for a missing (falsy) trip
    id, and for a trip that does not exist, the only effect is the ERROR
    reply. *)
Theorem refused_subscription_changes_nothing
  (content data trip_id : json) (w : world) :
  request content "SUBSCRIBE_TO_TRIP_LOCATION" data ->
  get data "trip_id" JNull = Ok trip_id ->
  (truthy trip_id = false ->
   receive content w
     = (Ok tt, after w [SendJson (error_message "Missing trip_id")])) /\
  (truthy trip_id = true -> trip_exists trip_id = Ok false ->
   receive content w
     = (Ok tt, after w [SendJson (error_message
                          ("Trip " ++ str trip_id ++ " not found"))])).
Proof.
  intros Hreq Hget.
  rewrite (receive_json_dispatch _ _ _ _ _ _ w Hreq). cbn [String.eqb Ascii.eqb Bool.eqb].
  rewrite (handle_subscribe_spec _ _ _ _ w Hget).
  split.
  - intros ->. reflexivity.
  - intros -> ->. reflexivity.
Qed.

(** X20: an unsubscription with a truthy trip id.  For a trip id that
    cannot be hashed (a JSON array or object) the membership test raises
    [TypeError] and nothing is sent.  For a hashable one whose group name
    the channel layer accepts the consumer confirms; afterwards the trip
    id is not in the consumer's [subscribed_trips] and the membership of
    every other trip id is unchanged; for a trip id that was not in the
    set the confirmation is the only effect, otherwise the group of the
    trip id is left first. *)
Theorem unsubscribe_removes_the_trip (content data trip_id : json) (w : world) :
  request content "UNSUBSCRIBE_FROM_TRIP_LOCATION" data ->
  get data "trip_id" JNull = Ok trip_id ->
  truthy trip_id = true ->
  (hashable trip_id = false -> receive content w = (Raise TypeError, w)) /\
  (hashable trip_id = true ->
   valid_group_name (group trip_id) = true ->
   exists w',
     receive content w = (Ok tt, w') /\
     set_contains (subscribed_trips (self w')) trip_id = Ok false /\
     (forall x, key_eq trip_id x = false ->
                set_contains (subscribed_trips (self w')) x
                = set_contains (subscribed_trips (self w)) x) /\
     (set_contains (subscribed_trips (self w)) trip_id = Ok false ->
      w' = after w [SendJson (status_message "UNSUBSCRIBED" trip_id)]) /\
     (set_contains (subscribed_trips (self w)) trip_id = Ok true ->
      trace w' = trace w ++
        [GroupDiscard (group trip_id) (channel_name (self w));
         SendJson (status_message "UNSUBSCRIBED" trip_id)])).
Proof.
  intros Hreq Hget Ht.
  rewrite (receive_json_dispatch _ _ _ _ _ _ w Hreq). cbn [String.eqb Ascii.eqb Bool.eqb].
  rewrite (handle_unsubscribe_spec _ _ _ w Hget), Ht. cbn [negb].
  split.
  { intros Hh. unfold set_contains. now rewrite Hh. }
  intros Hh _.
  unfold set_contains at 1. rewrite Hh.
  assert (Hfilter : forall s x, key_eq trip_id x = false ->
            existsb (key_eq x) (filter (fun y => negb (key_eq trip_id y)) s)
            = existsb (key_eq x) s).
  { intros s x Hx. induction s as [|y s IH]; [reflexivity|].
    cbn [filter existsb]. destruct (key_eq trip_id y) eqn:Ey; cbn [negb existsb].
    - rewrite IH. destruct (key_eq x y) eqn:Exy; [|reflexivity].
      rewrite key_eq_sym in Exy.
      rewrite (key_eq_trans _ _ _ Ey Exy) in Hx. discriminate.
    - now rewrite IH. }
  destruct (existsb (key_eq trip_id) (subscribed_trips (self w))) eqn:Ex.
  - eexists. split; [reflexivity|].
    unfold after_with, set_contains. cbn [self subscribed_trips trace].
    rewrite Hh, set_discard_gone, Ex.
    split; [reflexivity|]. split; [|split; [discriminate|reflexivity]].
    intros x Hx. destruct (hashable x); [|reflexivity]. now rewrite Hfilter.
  - eexists. split; [reflexivity|].
    unfold after, set_contains. cbn [self subscribed_trips trace].
    rewrite Hh, Ex.
    split; [reflexivity|]. split; [reflexivity|].
    split; [reflexivity|discriminate].
Qed.

(** X21: subscribing to a trip that was not subscribed, and whose group
    name the channel layer accepts, and unsubscribing from it again
    gives back the consumer's state; the trace shows the group joined
    and left. *)
Theorem subscribe_then_unsubscribe_restores
  (subscribe unsubscribe data trip_id : json) (w : world) :
  request subscribe "SUBSCRIBE_TO_TRIP_LOCATION" data ->
  request unsubscribe "UNSUBSCRIBE_FROM_TRIP_LOCATION" data ->
  get data "trip_id" JNull = Ok trip_id ->
  truthy trip_id = true ->
  trip_exists trip_id = Ok true ->
  valid_group_name (group trip_id) = true ->
  set_contains (subscribed_trips (self w)) trip_id = Ok false ->
  exists w1 w2,
    receive subscribe w = (Ok tt, w1) /\
    receive unsubscribe w1 = (Ok tt, w2) /\
    self w2 = self w /\
    trace w2 = trace w ++
      [GroupAdd (group trip_id) (channel_name (self w));
       SendJson (status_message "SUBSCRIBED" trip_id);
       GroupDiscard (group trip_id) (channel_name (self w));
       SendJson (status_message "UNSUBSCRIBED" trip_id)].
Proof.
  intros Hsub Hunsub Hget Ht He Hv Hn.
  unfold set_contains in Hn.
  destruct (hashable trip_id) eqn:Hh; [|discriminate]. injection Hn as Hn.
  eexists _, _.
  rewrite (receive_json_dispatch _ _ _ _ _ _ w Hsub). cbn [String.eqb Ascii.eqb Bool.eqb].
  rewrite (handle_subscribe_spec _ _ _ _ w Hget), Ht, He, Hv. cbn [negb].
  unfold set_add. rewrite Hh, Hn. split; [reflexivity|].
  rewrite (receive_json_dispatch _ _ _ _ _ _ _ Hunsub). cbn [String.eqb Ascii.eqb Bool.eqb].
  rewrite (handle_unsubscribe_spec _ _ _ _ Hget), Ht. cbn [negb].
  unfold set_contains, after_with. cbn [self subscribed_trips trace channel_name kafka_producer].
  rewrite Hh, existsb_app. cbn [existsb]. rewrite (key_eq_refl _ Hh), orb_true_r.
  cbn [orb]. split; [reflexivity|]. cbn [self trace].
  rewrite filter_app, (set_discard_absent _ _ Hn). cbn [filter].
  rewrite (key_eq_refl _ Hh). cbn [negb]. rewrite app_nil_r, <- app_assoc.
  split; [|reflexivity]. destruct w as [[c s k] t]. reflexivity.
Qed.

End Gateway.

Section Publishing.

Variable str : json -> string.
Variable trip_exists : json -> result bool.
Variable send_and_wait : string -> json -> result unit.

Local Abbreviation receive content :=
  (receive_json str trip_exists send_and_wait content).

Local Abbreviation group trip_id := (_get_group_name str trip_id).

Lemma publish_handed_lemma
  (content data trip_id latitude longitude timestamp : json)
  (client : KafkaProducerClient) (w : world) :
  request content "PUBLISH_LOCATION" data ->
  publish_fields data trip_id latitude longitude timestamp ->
  truthy trip_id = true -> is_not_none latitude = true ->
  is_not_none longitude = true ->
  trip_exists trip_id = Ok true ->
  kafka_producer (self w) = Some client ->
  let update := location_update trip_id latitude longitude timestamp in
  (producer client = true ->
   send_and_wait (topic client) update = Ok tt ->
   receive content w =
     (Ok tt,
      after w [KafkaSend (topic client) update;
               SendJson (status_message "LOCATION_PUBLISHED" trip_id)])) /\
  (producer client = false \/
   (exists e, send_and_wait (topic client) update = Raise e) ->
   valid_group_name (group trip_id) = true ->
   receive content w =
     (Ok tt,
      after w [GroupSend (group trip_id) (group_event update);
               SendJson (status_message "LOCATION_PUBLISHED" trip_id)])).
Proof.
  intros Hreq (H1 & H2 & H3 & H4) Ht Hla Hlo He Hk update.
  rewrite (receive_json_dispatch _ _ _ _ _ _ w Hreq). cbn [String.eqb Ascii.eqb Bool.eqb].
  rewrite (handle_publish_location_spec _ _ _ _ _ _ _ _ w H1 H2 H3 H4).
  rewrite Ht, Hla, Hlo, He, Hk. cbn [andb negb]. fold update. split.
  - intros -> ->. reflexivity.
  - intros Hc ->.
    destruct Hc as [->|[e ->]]; [reflexivity|]. now rewrite andb_false_r.
Qed.

(** X22: a valid PUBLISH_LOCATION for an existing trip is handed over
    exactly once and then acknowledged: to Kafka when there is a
    producer and the send succeeds; to the trip's channel group when
    there is no producer or the send fails, and the channel layer
    accepts the group name. *)
Theorem publish_is_handed_over_once
  (content data trip_id latitude longitude timestamp : json)
  (client : KafkaProducerClient) (w : world) :
  request content "PUBLISH_LOCATION" data ->
  publish_fields data trip_id latitude longitude timestamp ->
  truthy trip_id = true -> is_not_none latitude = true ->
  is_not_none longitude = true ->
  trip_exists trip_id = Ok true ->
  kafka_producer (self w) = Some client ->
  let update := location_update trip_id latitude longitude timestamp in
  (producer client = true ->
   send_and_wait (topic client) update = Ok tt ->
   receive content w =
     (Ok tt,
      after w [KafkaSend (topic client) update;
               SendJson (status_message "LOCATION_PUBLISHED" trip_id)])) /\
  (producer client = false \/
   (exists e, send_and_wait (topic client) update = Raise e) ->
   valid_group_name (group trip_id) = true ->
   receive content w =
     (Ok tt,
      after w [GroupSend (group trip_id) (group_event update);
               SendJson (status_message "LOCATION_PUBLISHED" trip_id)])).
Proof.
  apply publish_handed_lemma.
Qed.

(** X23: a refused PUBLISH_LOCATION hands over nothing: with a falsy trip id
    or a null latitude or longitude, for a trip that does not exist, and
    with no producer on the connection, the only effect is the ERROR
    reply. *)
Theorem refused_publish_hands_over_nothing
  (content data trip_id latitude longitude timestamp : json) (w : world) :
  request content "PUBLISH_LOCATION" data ->
  publish_fields data trip_id latitude longitude timestamp ->
  (truthy trip_id = false \/ latitude = JNull \/ longitude = JNull ->
   receive content w =
     (Ok tt, after w [SendJson (error_message
                "Missing required fields: trip_id, latitude, longitude")])) /\
  (truthy trip_id = true -> is_not_none latitude = true ->
   is_not_none longitude = true ->
   (trip_exists trip_id = Ok false ->
    receive content w =
      (Ok tt, after w [SendJson (error_message
                         ("Trip " ++ str trip_id ++ " not found"))])) /\
   (trip_exists trip_id = Ok true -> kafka_producer (self w) = None ->
    receive content w =
      (Ok tt, after w [SendJson (error_message
                         "Failed to publish location update")]))).
Proof.
  intros Hreq (H1 & H2 & H3 & H4).
  rewrite (receive_json_dispatch _ _ _ _ _ _ w Hreq). cbn [String.eqb Ascii.eqb Bool.eqb].
  rewrite (handle_publish_location_spec _ _ _ _ _ _ _ _ w H1 H2 H3 H4).
  split.
  - intros [Ht|[->| ->]].
    + rewrite Ht. reflexivity.
    + cbn [is_not_none]. rewrite andb_false_r. reflexivity.
    + cbn [is_not_none]. rewrite andb_false_r. reflexivity.
  - intros -> -> ->. cbn [andb negb]. split.
    + intros ->. reflexivity.
    + intros -> ->. reflexivity.
Qed.

(** X24: an update published without a broker reaches the subscribers of
    its trip: when the channel layer accepts the group name of the trip,
    the group the publisher sends to is the group a subscriber of the
    same trip id joined, and [trip_location_update] turns the event sent
    into a TRIP_LOCATION_UPDATE message with the published fields. *)
Theorem update_reaches_the_subscribers
  (publish subscribe data data' trip_id latitude longitude timestamp : json)
  (client : KafkaProducerClient) (publisher subscriber : world) :
  request publish "PUBLISH_LOCATION" data ->
  publish_fields data trip_id latitude longitude timestamp ->
  request subscribe "SUBSCRIBE_TO_TRIP_LOCATION" data' ->
  get data' "trip_id" JNull = Ok trip_id ->
  truthy trip_id = true -> hashable trip_id = true ->
  is_not_none latitude = true -> is_not_none longitude = true ->
  trip_exists trip_id = Ok true ->
  valid_group_name (group trip_id) = true ->
  kafka_producer (self publisher) = Some client ->
  producer client = false ->
  exists group_name event s,
    receive subscribe subscriber =
      (Ok tt,
       after_with subscriber s
         [GroupAdd group_name (channel_name (self subscriber));
          SendJson (status_message "SUBSCRIBED" trip_id)]) /\
    receive publish publisher =
      (Ok tt,
       after publisher
         [GroupSend group_name event;
          SendJson (status_message "LOCATION_PUBLISHED" trip_id)]) /\
    forall w,
      trip_location_update event w =
      (Ok tt,
       after w [SendJson
                  (message "TRIP_LOCATION_UPDATE"
                     (location_update trip_id latitude longitude timestamp))]).
Proof.
  intros Hpub Hf Hsub Hget Ht Hh Hla Hlo He Hv Hk Hp.
  destruct (subscribe_adds_lemma str trip_exists send_and_wait
              subscribe data' trip_id subscriber Hsub Hget Ht Hh He Hv)
    as (s & Es & _).
  destruct (publish_handed_lemma publish data trip_id latitude longitude
              timestamp client publisher Hpub Hf Ht Hla Hlo He Hk)
    as (_ & Hfall).
  eexists _, _, s. split; [exact Es|].
  split; [exact (Hfall (or_introl Hp) Hv)|].
  intros w. reflexivity.
Qed.

End Publishing.

Import GoogleDirectionsService.

(** X25: [disconnect] leaves the group of every subscribed trip, once each,
    does nothing else to the channel layer, and empties the set; it
    raises only if stopping the producer does. *)
Theorem disconnect_leaves_every_group
  (str : json -> string) (producer_stop : result unit)
  (close_code : json) (w : world) :
  set_ok (subscribed_trips (self w)) ->
  exists r w' left,
    disconnect str producer_stop close_code w = (r, w') /\
    subscribed_trips (self w') = [] /\
    trace w' = trace w ++ left /\
    List.length left = List.length (subscribed_trips (self w)) /\
    (forall e,
       In e left <->
       exists trip_id,
         In trip_id (subscribed_trips (self w)) /\
         e = GroupDiscard (_get_group_name str trip_id)
               (channel_name (self w))) /\
    (r = Ok tt \/
     r = producer_stop /\
     exists client, kafka_producer (self w) = Some client /\
                    producer client = true).
Proof.
  intros Hs. rewrite (disconnect_spec str producer_stop close_code w Hs).
  eexists _, _, _. split; [reflexivity|]. split; [reflexivity|].
  split; [reflexivity|]. split; [apply length_map|]. split.
  - intros e. rewrite in_map_iff. split.
    + intros (t & <- & Ht). now exists t.
    + intros (t & Ht & ->). now exists t.
  - destruct (kafka_producer (self w)) as [client|]; [|now left].
    destruct (producer client) eqn:Hp; [|now left].
    right. split; [reflexivity|]. now exists client.
Qed.

(** X26: [consume] never raises, sends nothing but group messages, and
    sends nothing at all without a consumer. *)
Theorem consume_never_raises (str : json -> string)
  (consumer : bool) (turns : list turn) (sent : list effect) :
  exists more,
    consume str consumer turns sent = (Ok tt, sent ++ more) /\
    Forall (fun e => exists group_name event, e = GroupSend group_name event) more /\
    (consumer = false -> more = []).
Proof.
  unfold consume. destruct consumer; cbn [negb].
  - destruct (consume_loop_grows str turns sent) as (r & more & E & Hm).
    rewrite E. exists more. destruct r as [[]|e]; repeat split; auto; discriminate.
  - exists []. rewrite app_nil_r. repeat split; auto.
Qed.

(** X27: [consume] broadcasts the messages that carry a trip id, in order,
    as long as the turns are messages with a JSON object that arrive
    while the consumer runs and the channel layer accepts their group
    names; at the first turn that is no such message it stops, and
    nothing after that turn is broadcast. *)
Theorem consume_stops_at_the_first_bad_turn (str : json -> string)
  (good : list turn) (bad : turn) (rest : list turn) (sent : list effect) :
  Forall (accepted str) good -> ~ healthy bad ->
  consume str true (good ++ bad :: rest) sent
    = (Ok tt, sent ++ filter_map (broadcast_of str) good) /\
  consume str true good sent
    = (Ok tt, sent ++ filter_map (broadcast_of str) good).
Proof.
  intros Hg Hb. unfold consume. cbn [negb]. split.
  - rewrite (consume_loop_healthy str good (bad :: rest) sent Hg).
    destruct (consume_loop_stops str bad rest
                (sent ++ filter_map (broadcast_of str) good) Hb) as [r E].
    rewrite E. now destruct r as [[]|e].
  - rewrite <- (app_nil_r good) at 1.
    rewrite (consume_loop_healthy str good [] sent Hg). reflexivity.
Qed.

(** ** A group name the channel layer refuses

    The trip id [" 7"] names trip 7 in the database lookup, and its
    group name has a space in it. *)

Example group_name_with_a_space_is_refused :
  valid_group_name (_get_group_name sample_str (JStr " 7")) = false /\
  valid_group_name (_get_group_name sample_str (JInt 7)) = true.
Proof. split; reflexivity. Qed.

(** The subscription raises [TypeError]: nothing is sent and the set is
    as it was. *)
Example subscribe_with_a_refused_name :
  receive_json sample_str every_trip_exists send_succeeds
    (message "SUBSCRIBE_TO_TRIP_LOCATION" (JDict [("trip_id"%string, JStr " 7")]))
    (sample_world [])
  = (Raise TypeError, sample_world []).
Proof. reflexivity. Qed.

(** The publication without a broker is answered with an ERROR. *)
Example publish_with_a_refused_name :
  receive_json sample_str every_trip_exists send_succeeds
    (message "PUBLISH_LOCATION"
       (JDict [("trip_id"%string, JStr " 7"); ("latitude"%string, JInt 6);
               ("longitude"%string, JInt 3)]))
    (sample_world [])
  = (Ok tt,
     after (sample_world [])
       [SendJson (error_message "Failed to publish location update")]).
Proof. reflexivity. Qed.

(** The consumer loop ends at the message, without a broadcast. *)
Example consume_with_a_refused_name :
  consume sample_str true
    [Message true (JDict [("trip_id"%string, JStr " 7")]);
     Message true trip_7_data] []
  = (Ok tt, []).
Proof. reflexivity. Qed.

Import GoogleDirectionsService.

(** X28: when [get_route_geometry] returns, the polyline is not empty, the
    API key was not empty, and the polyline is the [points] of the
    [overview_polyline] of the first route of a response whose status is
    OK. *)
Theorem returned_polyline_is_not_empty
  (requests_get : string -> list (string * string) -> fetched)
  (str : json -> string) (str_float : R -> string)
  (api_key : string) (origin_lat origin_lng dest_lat dest_lng : R)
  (polyline : json) :
  get_route_geometry requests_get str str_float api_key
    origin_lat origin_lng dest_lat dest_lng = Return polyline ->
  truthy polyline = true /\
  polyline <> JStr EmptyString /\
  api_key <> EmptyString /\
  exists params data routes route overview,
    requests_get BASE_URL params = Response (Ok data) /\
    get data "status" JNull = Ok (JStr "OK") /\
    get data "routes" (JList []) = Ok routes /\
    first_item routes = Ok route /\
    get route "overview_polyline" (JDict []) = Ok overview /\
    get overview "points" (JStr EmptyString) = Ok polyline.
Proof.
  unfold get_route_geometry. intros H.
  destruct (RouteMatchingService.str_falsy api_key) eqn:Ek; [discriminate|].
  match type of H with
  | match requests_get _ ?p with _ => _ end = _ => set (params := p) in *
  end.
  destruct (requests_get BASE_URL params) as [[data|e]|text|e] eqn:Er;
    try discriminate.
  unfold read_route in H.
  destruct (get data "status" JNull) as [status|e] eqn:Es; [|discriminate].
  destruct (differs_from_OK status) eqn:Ed.
  { destruct (get data "status" (JStr "Unknown error")); [|discriminate].
    destruct (get data "error_message" _); discriminate. }
  destruct (get data "routes" (JList [])) as [routes|e] eqn:Ero; [|discriminate].
  destruct (negb (truthy routes)); [discriminate|].
  destruct (first_item routes) as [route|e] eqn:Ef; [|discriminate].
  destruct (get route "overview_polyline" (JDict [])) as [overview|e] eqn:Eo;
    [|discriminate].
  destruct (get overview "points" (JStr EmptyString)) as [p|e] eqn:Ep;
    [|discriminate].
  destruct (truthy p) eqn:Et; cbn [negb] in H; [|discriminate].
  injection H as <-.
  split; [assumption|]. split; [intros ->; discriminate|].
  split; [intros ->; discriminate|].
  exists params, data, routes, route, overview.
  split; [assumption|]. split; [|auto].
  destruct status; try discriminate. cbn in Ed.
  apply negb_false_iff, String.eqb_eq in Ed. now subst.
Qed.

Lemma receive_json_keeps_the_set_witness :
  set_ok (subscribed_trips (self (sample_world [JInt 7]))) /\
  set_ok (subscribed_trips (self (snd
    (receive_json sample_str every_trip_exists send_succeeds
       (message "SUBSCRIBE_TO_TRIP_LOCATION" trip_7_data)
       (sample_world [JInt 7]))))).
Proof.
  assert (H : set_ok (subscribed_trips (self (sample_world [JInt 7]))))
    by (simpl; auto).
  split; [exact H|].
  exact (proj1 (receive_json_keeps_the_set sample_str every_trip_exists
                  send_succeeds
                  (message "SUBSCRIBE_TO_TRIP_LOCATION" trip_7_data)
                  (sample_world [JInt 7]) H)).
Defined.

Lemma subscribe_adds_the_trip_witness :
  request (message "SUBSCRIBE_TO_TRIP_LOCATION" trip_7_data)
    "SUBSCRIBE_TO_TRIP_LOCATION" trip_7_data /\
  get trip_7_data "trip_id" JNull = Ok (JInt 7) /\
  truthy (JInt 7) = true /\ hashable (JInt 7) = true /\
  every_trip_exists (JInt 7) = Ok true /\
  valid_group_name (_get_group_name sample_str (JInt 7)) = true /\
  exists s,
    snd (receive_json sample_str every_trip_exists send_succeeds
           (message "SUBSCRIBE_TO_TRIP_LOCATION" trip_7_data) (sample_world []))
    = after_with (sample_world []) s
        [GroupAdd "trip_location_7" "channel.1";
         SendJson (status_message "SUBSCRIBED" (JInt 7))] /\
    set_contains s (JInt 7) = Ok true.
Proof.
  assert (Hr : request (message "SUBSCRIBE_TO_TRIP_LOCATION" trip_7_data)
                 "SUBSCRIBE_TO_TRIP_LOCATION" trip_7_data)
    by (split; reflexivity).
  repeat (split; [first [exact Hr | reflexivity]|]).
  destruct (subscribe_adds_the_trip sample_str every_trip_exists send_succeeds
              _ _ _ (sample_world []) Hr eq_refl eq_refl eq_refl eq_refl eq_refl)
    as (s & E & Hin & _).
  exists s. rewrite E. split; [reflexivity|exact Hin].
Defined.

Lemma refused_subscription_changes_nothing_witness :
  request (message "SUBSCRIBE_TO_TRIP_LOCATION" trip_7_data)
    "SUBSCRIBE_TO_TRIP_LOCATION" trip_7_data /\
  get trip_7_data "trip_id" JNull = Ok (JInt 7) /\
  no_trip_exists (JInt 7) = Ok false /\
  receive_json sample_str no_trip_exists send_succeeds
    (message "SUBSCRIBE_TO_TRIP_LOCATION" trip_7_data) (sample_world [])
  = (Ok tt, after (sample_world [])
              [SendJson (error_message "Trip 7 not found")]).
Proof.
  assert (Hr : request (message "SUBSCRIBE_TO_TRIP_LOCATION" trip_7_data)
                 "SUBSCRIBE_TO_TRIP_LOCATION" trip_7_data)
    by (split; reflexivity).
  repeat (split; [first [exact Hr | reflexivity]|]).
  exact (proj2 (refused_subscription_changes_nothing sample_str no_trip_exists
                  send_succeeds _ _ _ (sample_world []) Hr eq_refl)
           eq_refl eq_refl).
Defined.

Lemma unsubscribe_removes_the_trip_witness :
  request (message "UNSUBSCRIBE_FROM_TRIP_LOCATION" trip_7_data)
    "UNSUBSCRIBE_FROM_TRIP_LOCATION" trip_7_data /\
  get trip_7_data "trip_id" JNull = Ok (JInt 7) /\
  truthy (JInt 7) = true /\ hashable (JInt 7) = true /\
  valid_group_name (_get_group_name sample_str (JInt 7)) = true /\
  exists w',
    receive_json sample_str every_trip_exists send_succeeds
      (message "UNSUBSCRIBE_FROM_TRIP_LOCATION" trip_7_data)
      (sample_world [JInt 7]) = (Ok tt, w') /\
    set_contains (subscribed_trips (self w')) (JInt 7) = Ok false.
Proof.
  assert (Hr : request (message "UNSUBSCRIBE_FROM_TRIP_LOCATION" trip_7_data)
                 "UNSUBSCRIBE_FROM_TRIP_LOCATION" trip_7_data)
    by (split; reflexivity).
  repeat (split; [first [exact Hr | reflexivity]|]).
  destruct (proj2 (unsubscribe_removes_the_trip sample_str every_trip_exists
                     send_succeeds _ _ _ (sample_world [JInt 7]) Hr eq_refl
                     eq_refl) eq_refl eq_refl) as (w' & E & Hout & _).
  exists w'. split; assumption.
Defined.

Lemma subscribe_then_unsubscribe_restores_witness :
  valid_group_name (_get_group_name sample_str (JInt 7)) = true /\
  set_contains (subscribed_trips (self (sample_world []))) (JInt 7) = Ok false /\
  exists w1 w2,
    receive_json sample_str every_trip_exists send_succeeds
      (message "SUBSCRIBE_TO_TRIP_LOCATION" trip_7_data) (sample_world [])
      = (Ok tt, w1) /\
    receive_json sample_str every_trip_exists send_succeeds
      (message "UNSUBSCRIBE_FROM_TRIP_LOCATION" trip_7_data) w1 = (Ok tt, w2) /\
    self w2 = self (sample_world []).
Proof.
  split; [reflexivity|]. split; [reflexivity|].
  destruct (subscribe_then_unsubscribe_restores sample_str every_trip_exists
              send_succeeds
              (message "SUBSCRIBE_TO_TRIP_LOCATION" trip_7_data)
              (message "UNSUBSCRIBE_FROM_TRIP_LOCATION" trip_7_data)
              trip_7_data (JInt 7) (sample_world []))
    as (w1 & w2 & E1 & E2 & Hs & _);
    try reflexivity; try (split; reflexivity).
  now exists w1, w2.
Defined.

Lemma publish_is_handed_over_once_witness :
  request (message "PUBLISH_LOCATION" position_data)
    "PUBLISH_LOCATION" position_data /\
  publish_fields position_data (JInt 7) (JInt 6) (JInt 3) (JStr "noon") /\
  kafka_producer (self (sample_world [])) = Some sample_client /\
  valid_group_name (_get_group_name sample_str (JInt 7)) = true /\
  receive_json sample_str every_trip_exists send_succeeds
    (message "PUBLISH_LOCATION" position_data) (sample_world [])
  = (Ok tt,
     after (sample_world [])
       [GroupSend "trip_location_7"
          (group_event
             (location_update (JInt 7) (JInt 6) (JInt 3) (JStr "noon")));
        SendJson (status_message "LOCATION_PUBLISHED" (JInt 7))]).
Proof.
  assert (Hr : request (message "PUBLISH_LOCATION" position_data)
                 "PUBLISH_LOCATION" position_data) by (split; reflexivity).
  assert (Hf : publish_fields position_data (JInt 7) (JInt 6) (JInt 3)
                 (JStr "noon")) by (repeat split; reflexivity).
  split; [exact Hr|]. split; [exact Hf|]. split; [reflexivity|].
  split; [reflexivity|].
  exact (proj2 (publish_is_handed_over_once sample_str every_trip_exists
                  send_succeeds _ _ _ _ _ _ sample_client (sample_world [])
                  Hr Hf eq_refl eq_refl eq_refl eq_refl eq_refl)
           (or_introl eq_refl) eq_refl).
Defined.

Lemma refused_publish_hands_over_nothing_witness :
  request (message "PUBLISH_LOCATION" position_without_latitude)
    "PUBLISH_LOCATION" position_without_latitude /\
  publish_fields position_without_latitude (JInt 7) JNull (JInt 3) JNull /\
  receive_json sample_str every_trip_exists send_succeeds
    (message "PUBLISH_LOCATION" position_without_latitude) (sample_world [])
  = (Ok tt,
     after (sample_world [])
       [SendJson (error_message
          "Missing required fields: trip_id, latitude, longitude")]).
Proof.
  assert (Hr : request (message "PUBLISH_LOCATION" position_without_latitude)
                 "PUBLISH_LOCATION" position_without_latitude)
    by (split; reflexivity).
  assert (Hf : publish_fields position_without_latitude (JInt 7) JNull (JInt 3)
                 JNull) by (repeat split; reflexivity).
  split; [exact Hr|]. split; [exact Hf|].
  exact (proj1 (refused_publish_hands_over_nothing sample_str every_trip_exists
                  send_succeeds _ _ _ _ _ _ (sample_world []) Hr Hf)
           (or_intror (or_introl eq_refl))).
Defined.

Lemma update_reaches_the_subscribers_witness :
  request (message "PUBLISH_LOCATION" position_data)
    "PUBLISH_LOCATION" position_data /\
  request (message "SUBSCRIBE_TO_TRIP_LOCATION" trip_7_data)
    "SUBSCRIBE_TO_TRIP_LOCATION" trip_7_data /\
  valid_group_name (_get_group_name sample_str (JInt 7)) = true /\
  exists group_name event,
    In (GroupAdd group_name "channel.1")
       (trace (snd (receive_json sample_str every_trip_exists send_succeeds
                      (message "SUBSCRIBE_TO_TRIP_LOCATION" trip_7_data)
                      (sample_world [])))) /\
    In (GroupSend group_name event)
       (trace (snd (receive_json sample_str every_trip_exists send_succeeds
                      (message "PUBLISH_LOCATION" position_data)
                      (sample_world [])))) /\
    trip_location_update event (sample_world [])
    = (Ok tt,
       after (sample_world [])
         [SendJson (message "TRIP_LOCATION_UPDATE"
                      (location_update (JInt 7) (JInt 6) (JInt 3)
                         (JStr "noon")))]).
Proof.
  assert (Hp : request (message "PUBLISH_LOCATION" position_data)
                 "PUBLISH_LOCATION" position_data) by (split; reflexivity).
  assert (Hs : request (message "SUBSCRIBE_TO_TRIP_LOCATION" trip_7_data)
                 "SUBSCRIBE_TO_TRIP_LOCATION" trip_7_data)
    by (split; reflexivity).
  assert (Hf : publish_fields position_data (JInt 7) (JInt 6) (JInt 3)
                 (JStr "noon")) by (repeat split; reflexivity).
  split; [exact Hp|]. split; [exact Hs|]. split; [reflexivity|].
  destruct (update_reaches_the_subscribers sample_str every_trip_exists
              send_succeeds _ _ _ _ _ _ _ _ sample_client
              (sample_world []) (sample_world [])
              Hp Hf Hs eq_refl eq_refl eq_refl eq_refl eq_refl eq_refl eq_refl
              eq_refl eq_refl) as (g & ev & s & Es & Ep & Hev).
  exists g, ev. rewrite Es, Ep. split; [simpl; auto|]. split; [simpl; auto|].
  apply Hev.
Defined.

Lemma disconnect_leaves_every_group_witness :
  set_ok (subscribed_trips (self (sample_world [JInt 7; JStr "x"]))) /\
  exists r w' left,
    disconnect sample_str (Ok tt) JNull (sample_world [JInt 7; JStr "x"])
      = (r, w') /\
    subscribed_trips (self w') = [] /\
    trace w' = left /\ List.length left = 2%nat.
Proof.
  assert (H : set_ok (subscribed_trips (self (sample_world [JInt 7; JStr "x"]))))
    by (simpl; auto).
  split; [exact H|].
  destruct (disconnect_leaves_every_group sample_str (Ok tt) JNull
              (sample_world [JInt 7; JStr "x"]) H)
    as (r & w' & left & E & Hs & Ht & Hl & _).
  exists r, w', left. split; [exact E|]. split; [exact Hs|].
  split; [exact Ht|exact Hl].
Defined.

Lemma consume_stops_at_the_first_bad_turn_witness :
  Forall (accepted sample_str) [Message true trip_7_data] /\
  ~ healthy (Message true JNull) /\
  consume sample_str true
    [Message true trip_7_data; Message true JNull; Message true trip_7_data] []
  = (Ok tt, [GroupSend "trip_location_7" (group_event trip_7_data)]).
Proof.
  assert (Hg : Forall (accepted sample_str) [Message true trip_7_data]).
  { constructor; [|constructor]. split; [eexists; reflexivity|].
    intros g ev E. injection E as <- _. reflexivity. }
  assert (Hb : ~ healthy (Message true JNull))
    by (intros [items H]; discriminate H).
  split; [exact Hg|]. split; [exact Hb|].
  exact (proj1 (consume_stops_at_the_first_bad_turn sample_str
                  [Message true trip_7_data] (Message true JNull)
                  [Message true trip_7_data] [] Hg Hb)).
Defined.

Lemma returned_polyline_is_not_empty_witness :
  get_route_geometry fetch_directions sample_str str_of_float "key" 0 0 0 1
    = Return (JStr "???_ibE") /\
  truthy (JStr "???_ibE") = true.
Proof.
  assert (H : get_route_geometry fetch_directions sample_str str_of_float
                "key" 0 0 0 1 = Return (JStr "???_ibE")) by reflexivity.
  split; [exact H|].
  exact (proj1 (returned_polyline_is_not_empty fetch_directions sample_str
                  str_of_float "key" 0 0 0 1 (JStr "???_ibE") H)).
Defined.
